(** * cp-amm-sdk: quoting, slippage, price and accrual helpers

    A shallow embedding of the numeric core of the SDK:
    - [src/unnamed/part_001]  (constants),
    - [src/unnamed/part_002]  (slippage, price impact, price conversions,
                               unclaimed fees and rewards),
    - [src/src/CpAmm.ts]      ([getQuote], [getLiquidityDelta],
                               [preparePoolCreationParams]),
    - [src/src/helpers/token.ts] ([getTokenDecimals], [getAllNftByUser]).

    Conventions.  A [BN] (bn.js big number) is an unbounded signed integer,
    modelled as [Z]; a JavaScript [number] is an IEEE-754 binary64, modelled
    by the kernel's primitive floats; a [Decimal] (decimal.js) is a decimal
    floating-point number of 20 significant digits; code that can throw
    returns [option] ([None] = the call throws / the promise rejects).
    The integer fields of the accounts are [BN]s; where the source hands a
    [BN] method a [number] instead ([MAX_FEE_NUMERATOR] in [getQuote]),
    the method is modelled on that argument. *)

From Stdlib Require Import ZArith Lia Floats Uint63 Reals Lra Psatz.
From Stdlib.Strings Require Import Byte.
From stdpp Require Import base option list gmap.

#[local] Open Scope Z_scope.

(** ** bn.js *)

Module BN.

(** [a.add(b)], [a.sub(b)], [a.mul(b)] build a fresh big number; none of
    them changes [a]. *)
Definition add (a b : Z) : Z := a + b.
Definition sub (a b : Z) : Z := a - b.
Definition mul (a b : Z) : Z := a * b.

(** [a.div(b)]: bn.js asserts that the divisor is not zero and truncates
    the quotient toward zero. *)
Definition div (a b : Z) : option Z :=
  if b =? 0 then None else Some (Z.quot a b).

(** [a.shrn(bits)] is [a.clone().ishrn(bits)], and [ishrn] starts with
    [assert(this.negative === 0)]: shifting a negative number throws. *)
Definition shrn (a : Z) (bits : N) : option Z :=
  if a <? 0 then None else Some (Z.shiftr a (Z.of_N bits)).

Definition lt (a b : Z) : bool := a <? b.
Definition gt (a b : Z) : bool := a >? b.

(** [a.gt(n)] where [n] is a JavaScript [number], not a [BN].  [gt] is
    [this.cmp(n) === 1], and [cmp] begins with the signs: [n.negative] is
    [undefined] on a number, so for a non-negative [a] the test
    [this.negative === 0 && n.negative !== 0] holds and [cmp] returns 1
    whatever [n] is; for a negative [a] both sign tests fail and [ucmp]
    reads [n.words[i]], a TypeError. *)
Definition gt_number (a n : Z) : option bool :=
  if a <? 0 then None else Some true.

(** [BN.min(left, right)]: [left] when [left.cmp(right) < 0], else [right]. *)
Definition min (left right : Z) : Z := if left <? right then left else right.

(** Truncation of a finite binary64 toward zero. *)
Definition trunc_float (x : float) : option Z :=
  match Prim2SF x with
  | S754_zero _ => Some 0
  | S754_finite s m e =>
      let mag := if 0 <=? e then Z.shiftl (Z.pos m) e
                 else Z.shiftr (Z.pos m) (- e) in
      Some (if s then - mag else mag)
  | S754_infinity _ | S754_nan => None
  end.

(** [new BN(number)]: the constructor passes [number || 0] on, which
    turns NaN (and the zeros) into 0; then [_initNumber] splits the sign
    off, cuts the magnitude into 26-bit words with [&] and [/ 0x4000000]
    (which drop the fractional part), and
    [assert(number < 0x20000000000000)] rejects magnitudes from 2^53 on
    and the infinities. *)
Definition of_number (x : float) : option Z :=
  match Prim2SF x with
  | S754_nan => Some 0
  | _ =>
      z ← trunc_float x;
      if Z.abs z <? 2 ^ 53 then Some z else None
  end.

(** [new BN(buffer)]: the bytes are read big-endian. *)
Definition of_buffer (buf : list byte) : Z :=
  fold_left (fun acc b => acc * 256 + Z.of_N (Byte.to_N b)) buf 0.

End BN.

(** [Buffer.from(bytes).reverse()]: a reversed copy. *)
Definition Buffer_reverse (bytes : list byte) : list byte := rev bytes.

(** ** Constants ([src/unnamed/part_001]) *)

Definition SCALE_OFFSET : Z := 64.
Definition BASIS_POINT_MAX : Z := 10000.
Definition MAX_FEE_NUMERATOR : Z := 500000000.
Definition FEE_DENOMINATOR : Z := 1000000000.
Definition MIN_SQRT_PRICE : Z := 4295048016.
Definition MAX_SQRT_PRICE : Z := 79226673521066979257578248091.

(** [BASIS_POINT_MAX] where the source uses it in [number] arithmetic. *)
Definition BASIS_POINT_MAX_number : float := 10000%float.

(** ** Slippage helpers ([src/unnamed/part_002], lines 19-34) *)

(** [slippage = ((100 + rate) / 100) * BASIS_POINT_MAX] is computed on
    [number]s, i.e. in binary64 with a rounding after each operation. *)
Definition getMaxAmountWithSlippage (amount : Z) (rate : float) : option Z :=
  let slippage := (((100 + rate) / 100) * BASIS_POINT_MAX_number)%float in
  s ← BN.of_number slippage;
  b ← BN.of_number BASIS_POINT_MAX_number;
  BN.div (BN.mul amount s) b.

Definition getMinAmountWithSlippage (amount : Z) (rate : float) : option Z :=
  let slippage := (((100 - rate) / 100) * BASIS_POINT_MAX_number)%float in
  s ← BN.of_number slippage;
  b ← BN.of_number BASIS_POINT_MAX_number;
  BN.div (BN.mul amount s) b.

(** ** decimal.js *)

Module Decimal.

(** A [Decimal] is NaN, a signed infinity, or a signed coefficient times
    a power of ten (signed zeros included).  The library runs with its
    defaults, which the SDK never changes: [precision] 20 significant
    digits, rounding mode [ROUND_HALF_UP].  Its exponent limits (nine
    quadrillion either way) are out of reach of the values met here and
    are left out. *)
Inductive t : Type :=
| NaN
| Infinity (neg : bool)
| Finite (neg : bool) (coeff : Z) (exp : Z).

Definition precision : Z := 20.

(** [new Decimal(bn.toString())]: an integer is taken digit for digit. *)
Definition of_BN (z : Z) : t := Finite (z <? 0) (Z.abs z) 0.

(** [new Decimal(n)] for a small integer literal such as [100]. *)
Definition of_int (z : Z) : t := of_BN z.

Fixpoint digits_fuel (fuel : nat) (n : Z) : Z :=
  match fuel with
  | O => 0
  | S fuel' => if n <? 10 then 1 else 1 + digits_fuel fuel' (n / 10)
  end.

(** Number of decimal digits of a positive integer. *)
Definition digits (n : Z) : Z := digits_fuel (S (Z.to_nat (Z.log2 n))) n.

(** [num / den * 10^-e] as a fraction of integers. *)
Definition scaled (num den e : Z) : Z * Z :=
  if 0 <=? e then (num, den * 10 ^ e) else (num * 10 ^ (- e), den).

(** [num / den] (both positive) rounded half-up to [precision] significant
    digits: the coefficient, of exactly [precision] digits, and the
    exponent of the result. *)
Definition round_ratio (num den : Z) : Z * Z :=
  let e0 := digits num - digits den - precision in
  let e := if fst (scaled num den e0) <? snd (scaled num den e0) * 10 ^ precision
           then e0 else e0 + 1 in
  let '(n, d) := scaled num den e in
  let m := (2 * n + d) / (2 * d) in
  if m =? 10 ^ precision then (10 ^ (precision - 1), e + 1) else (m, e).

(** [x.div(y)] ([divide]): NaN if either is NaN or both are infinite or
    both are zero; a signed zero if [x] is zero or [y] infinite; a signed
    infinity if [y] is zero or [x] infinite; else the rounded quotient.
    The sign is [x.s == y.s ? 1 : -1]. *)
Definition div (x y : t) : t :=
  match x, y with
  | NaN, _ | _, NaN => NaN
  | Infinity _, Infinity _ => NaN
  | Infinity sx, Finite sy _ _ => Infinity (xorb sx sy)
  | Finite sx _ _, Infinity sy => Finite (xorb sx sy) 0 0
  | Finite sx cx ex, Finite sy cy ey =>
      if cy =? 0 then (if cx =? 0 then NaN else Infinity (xorb sx sy))
      else if cx =? 0 then Finite (xorb sx sy) 0 0
      else let '(m, e) := round_ratio cx cy in
           Finite (xorb sx sy) m (e + ex - ey)
  end.

(** [x.mul(y)] ([times]): NaN if either is NaN or for zero times infinity;
    a signed infinity if either is infinite; a signed zero if either is
    zero; else the rounded product. *)
Definition mul (x y : t) : t :=
  match x, y with
  | NaN, _ | _, NaN => NaN
  | Infinity sx, Infinity sy => Infinity (xorb sx sy)
  | Infinity sx, Finite sy cy _ =>
      if cy =? 0 then NaN else Infinity (xorb sx sy)
  | Finite sx cx _, Infinity sy =>
      if cx =? 0 then NaN else Infinity (xorb sx sy)
  | Finite sx cx ex, Finite sy cy ey =>
      if (cx =? 0) || (cy =? 0) then Finite (xorb sx sy) 0 0
      else let '(m, e) := round_ratio (cx * cy) 1 in
           Finite (xorb sx sy) m (e + ex + ey)
  end.

(** The square root of [c * 10^e] ([c] positive), correctly rounded
    (half-up) to [precision] significant digits, as [squareRoot] documents
    its result. *)
Definition round_sqrt (c e : Z) : Z * Z :=
  let g0 := 2 * precision - digits c in
  let g := if Z.even (e - g0) then g0 else g0 - 1 in
  let '(n, d) := scaled c 1 (- g) in
  let s0 := Z.sqrt (n / d) in
  let r := if (2 * s0 + 1) ^ 2 * d <=? 4 * n then s0 + 1 else s0 in
  let f := (e - g) / 2 in
  if r =? 10 ^ precision then (10 ^ (precision - 1), f + 1) else (r, f).

(** [Decimal.sqrt(x)]: NaN for NaN, for minus infinity and for negative
    numbers; zeros and plus infinity are returned as they are. *)
Definition sqrt (x : t) : t :=
  match x with
  | NaN => NaN
  | Infinity neg => if neg then NaN else Infinity false
  | Finite neg c e =>
      if c =? 0 then Finite neg 0 0
      else if neg then NaN
      else let '(m, f) := round_sqrt c e in Finite false m f
  end.

(** [Decimal.pow(2, n)] for the exponents the SDK uses (64 and 128): the
    exact power, rounded to [precision] digits. *)
Definition pow2 (n : Z) : t :=
  let '(m, e) := round_ratio (2 ^ n) 1 in Finite false m e.

(** [new BN(x.floor().toFixed())]: the integer part toward minus infinity,
    printed in full and read back; NaN and the infinities do not print as
    digits and make [new BN] throw. *)
Definition floorToBN (x : t) : option Z :=
  match x with
  | Finite neg c e =>
      let v := if neg then - c else c in
      Some (if 0 <=? e then v * 10 ^ e else v / 10 ^ (- e))
  | _ => None
  end.

(** [x.toNumber()]: the [number] nearest to the decimal value (ties to
    even), the way JavaScript reads a decimal literal. *)
Definition toNumber (x : t) : float :=
  match x with
  | NaN => nan
  | Infinity neg => if neg then neg_infinity else infinity
  | Finite neg c e =>
      if c =? 0 then SF2Prim (S754_zero neg)
      else
        let n := if 0 <=? e then c * 10 ^ e else c in
        let d := if 0 <=? e then 1 else 10 ^ (- e) in
        let k := Z.max 0 (64 + Z.log2 d - Z.log2 n) in
        let q := (n * 2 ^ k) / d in
        let sticky := if (n * 2 ^ k) mod d =? 0 then 0 else 1 in
        let m := 2 * q + sticky in
        SF2Prim (binary_normalize prec emax (if neg then - m else m)
                   (- k - 1) neg)
  end.

End Decimal.

(** ** Price impact ([src/unnamed/part_002], lines 42-48) *)

Definition getPriceImpact (actualAmount idealAmount : Z) : float :=
  let diff := BN.sub idealAmount actualAmount in
  Decimal.toNumber
    (Decimal.mul
       (Decimal.div (Decimal.of_BN diff) (Decimal.of_BN idealAmount))
       (Decimal.of_int 100)).

(** ** Price conversions ([src/unnamed/part_002], lines 50-84)

    [price] is the [Decimal] that [new Decimal(price)] reads from the
    string, and the string [getPriceFromSqrtPrice] returns is the [Decimal]
    it prints.  [10 ** (tokenADecimal - tokenBDecimal)] is a binary64 power
    handed to [new Decimal]; what decimal it becomes is a parameter. *)

Section PriceConversion.

Variable numberPow10 : Z -> Decimal.t.

Definition getPriceFromSqrtPrice (sqrtPrice tokenADecimal tokenBDecimal : Z)
    : Decimal.t :=
  let decimalSqrtPrice := Decimal.of_BN sqrtPrice in
  Decimal.div
    (Decimal.mul (Decimal.mul decimalSqrtPrice decimalSqrtPrice)
       (numberPow10 (tokenADecimal - tokenBDecimal)))
    (Decimal.pow2 128).

Definition getSqrtPriceFromPrice (price : Decimal.t)
    (tokenADecimal tokenBDecimal : Z) : option Z :=
  let decimalPrice := price in
  let adjustedByDecimals :=
    Decimal.div decimalPrice (numberPow10 (tokenADecimal - tokenBDecimal)) in
  let sqrtValue := Decimal.sqrt adjustedByDecimals in
  let sqrtValueQ64 := Decimal.mul sqrtValue (Decimal.pow2 64) in
  Decimal.floorToBN sqrtValueQ64.

End PriceConversion.

(** [new Decimal(10 ** n)] when the power is the exact one (as it is for
    [n = 0], and for the powers of ten a binary64 holds exactly). *)
Definition exactPow10 (n : Z) : Decimal.t := Decimal.Finite false 1 n.

(** A positive finite decimal, and the real number a decimal stands for. *)
Definition isPositive (x : Decimal.t) : bool :=
  match x with
  | Decimal.Finite false c _ => 0 <? c
  | _ => false
  end.

Definition p10 (e : Z) : R := powerRZ 10 e.

Definition Rval (c e : Z) : R := (IZR c * p10 e)%R.

Definition valR (x : Decimal.t) : R :=
  match x with
  | Decimal.Finite neg c e => if neg then (- Rval c e)%R else Rval c e
  | _ => 0%R
  end.

(** [x] lies between [lo * y] and [hi * y]. *)
Definition bnd (lo hi x y : R) : Prop := (lo * y <= x <= hi * y)%R.

(** The relative error granted to one rounded operation, and two reals
    within it of each other. *)
Definition eps : R := (/ 1000000000000000000)%R.

Definition near (x y : R) : Prop := bnd (1 - eps) (1 + eps) x y.

(** ** Account snapshots

    The account types come from the program's IDL, which is not part of
    this snapshot; the records list the fields the code reads.  Integer
    fields are [BN]s; the per-liquidity accumulators and checkpoints are
    little-endian byte arrays; a [PublicKey] is its 256-bit value. *)

Abbreviation PublicKey := N (only parsing).

Record DynamicFeeStruct : Type := {
  initialize : Z;
  volatilityAccumulator : Z;
  binStep : Z;
  variableFeeControl : Z
}.

Record PoolFeesStruct : Type := {
  feeSchedulerMode : Z;
  cliffFeeNumerator : Z;
  numberOfPeriod : Z;
  reductionFactor : Z;
  periodFrequency : Z;
  dynamicFee : DynamicFeeStruct
}.

Record PoolRewardInfo : Type := {
  rewardPerTokenStored : list byte
}.

Record PoolState : Type := {
  tokenAMint : PublicKey;
  tokenBMint : PublicKey;
  sqrtPrice : Z;
  liquidity : Z;
  activationType : Z;
  activationPoint : Z;
  poolFees : PoolFeesStruct;
  feeAPerLiquidity : list byte;
  feeBPerLiquidity : list byte;
  poolRewardInfos : list PoolRewardInfo
}.

Record UserRewardInfo : Type := {
  rewardPerTokenCheckpoint : list byte;
  rewardPendings : Z
}.

Record PositionState : Type := {
  unlockedLiquidity : Z;
  vestedLiquidity : Z;
  permanentLockedLiquidity : Z;
  feeAPerTokenCheckpoint : list byte;
  feeBPerTokenCheckpoint : list byte;
  feeAPending : Z;
  feeBPending : Z;
  rewardInfos : list UserRewardInfo
}.

(** ** Unclaimed fees and rewards ([src/unnamed/part_002], lines 88-123) *)

Record UnClaimReward : Type := {
  feeTokenA : Z;
  feeTokenB : Z;
  rewards : list Z
}.

(** [new BN(Buffer.from(bytes).reverse())] *)
Definition bytesToBN (bytes : list byte) : Z :=
  BN.of_buffer (Buffer_reverse bytes).

(** Lines 100-106: the accumulator's advance since the checkpoint. *)
Definition feePerTokenStored (accumulator checkpoint : list byte) : Z :=
  BN.sub (bytesToBN accumulator) (bytesToBN checkpoint).

(** Lines 96-98: the liquidity the position accrues with. *)
Definition positionTotalLiquidity (positionState : PositionState) : Z :=
  BN.add (BN.add (unlockedLiquidity positionState)
                 (vestedLiquidity positionState))
         (permanentLockedLiquidity positionState).

Section UnClaimReward.

(** [LIQUIDITY_SCALE] is imported from the constants module but is not
    among the constants of [part_001]; it is a parameter here (the
    comment above the function says the shift is 128). *)
Variable LIQUIDITY_SCALE : N.

Definition getUnClaimReward (poolState : PoolState)
    (positionState : PositionState) : option UnClaimReward :=
  let totalPositionLiquidity := positionTotalLiquidity positionState in
  let feeAPerTokenStored :=
    feePerTokenStored (feeAPerLiquidity poolState)
                      (feeAPerTokenCheckpoint positionState) in
  let feeBPerTokenStored :=
    feePerTokenStored (feeBPerLiquidity poolState)
                      (feeBPerTokenCheckpoint positionState) in
  feeA ← BN.shrn (BN.mul totalPositionLiquidity feeAPerTokenStored)
                 LIQUIDITY_SCALE;
  feeB ← BN.shrn (BN.mul totalPositionLiquidity feeBPerTokenStored)
                 LIQUIDITY_SCALE;
  Some {| feeTokenA := BN.add (feeAPending positionState) feeA;
          feeTokenB := BN.add (feeBPending positionState) feeB;
          rewards :=
            if (0 <? length (rewardInfos positionState))%nat
            then map rewardPendings (rewardInfos positionState)
            else [] |}.

End UnClaimReward.

(** ** Quote ([src/src/CpAmm.ts], lines 186-250) *)

Record FeeBreakdown : Type := {
  feeActualAmount : Z;
  lpFee : Z
}.

(** The helpers [getQuote] imports from [./utils] and [./utils/curve];
    neither module is part of this snapshot, so they are an interface. *)
Class QuoteUtils : Type := {
  calculateSwap : Z -> Z -> Z -> bool -> Z;
  getBaseFeeNumerator : Z -> Z -> Z -> Z -> Z;
  getDynamicFeeNumerator : Z -> Z -> Z -> Z;
  calculateFee : Z -> Z -> FeeBreakdown
}.

Record GetQuoteParams : Type := {
  pool : PublicKey;
  inAmount : Z;
  inputTokenMint : PublicKey
}.

Record Quote : Type := {
  actualAmount : Z;
  totalFee : Z
}.

(** What [getQuote] reads besides its argument: the pool accounts behind
    the RPC connection, the cluster's current slot ([getSlot()]) and the
    wall clock ([Date.now()], milliseconds).  Slot and clock are integer
    [number]s below 2^53, for which [Math.floor(ms / 1000)] is the integer
    quotient and [new BN(n)] is exact. *)
Record World : Type := {
  poolAccounts : gmap N PoolState;
  currentSlot : Z;
  dateNow : Z
}.

(** [fetchPoolState]: [fetchNullable] followed by [invariant(poolState, _)]. *)
Definition fetchPoolState (w : World) (pool : PublicKey) : option PoolState :=
  poolAccounts w !! pool.

(** [activationType ? Math.floor(Date.now() / 1000) : await getSlot()] *)
Definition readCurrentPoint (w : World) (activationType : Z) : Z :=
  if activationType =? 0 then currentSlot w else dateNow w / 1000.

(** Lines 216-221: the period the fee scheduler is evaluated at. *)
Definition quotePeriod (currentPoint activationPoint numberOfPeriod
    periodFrequency : Z) : option Z :=
  if BN.lt currentPoint activationPoint then Some numberOfPeriod
  else
    elapsed ← BN.div (BN.sub currentPoint activationPoint) periodFrequency;
    Some (BN.min numberOfPeriod elapsed).

Section Quote.

Context `{U : QuoteUtils}.

(** Lines 223-242: the numerator handed to [calculateFee].  Inside the
    [if], [feeNumerator.add(...)] is an expression statement: it builds a
    sum and nothing is assigned.  [MAX_FEE_NUMERATOR] is the [number] of
    [part_001], line 9, and is what [gt] is handed. *)
Definition quoteTradeFeeNumerator (fees : PoolFeesStruct) (period : Z)
    : option Z :=
  let feeNumerator :=
    getBaseFeeNumerator (feeSchedulerMode fees) (cliffFeeNumerator fees)
      period (reductionFactor fees) in
  let feeNumerator :=
    if initialize (dynamicFee fees) =? 0 then feeNumerator
    else
      let dynamicFeeNumberator :=
        getDynamicFeeNumerator (volatilityAccumulator (dynamicFee fees))
          (binStep (dynamicFee fees)) (variableFeeControl (dynamicFee fees)) in
      let _ := BN.add feeNumerator dynamicFeeNumberator in
      feeNumerator in
  above ← BN.gt_number feeNumerator MAX_FEE_NUMERATOR;
  Some (if above : bool then MAX_FEE_NUMERATOR else feeNumerator).

Definition getQuote (w : World) (params : GetQuoteParams) : option Quote :=
  poolState ← fetchPoolState w (pool params);
  let fees := poolFees poolState in
  let aToB := bool_decide (tokenAMint poolState = inputTokenMint params) in
  let outAmount :=
    calculateSwap (inAmount params) (sqrtPrice poolState)
      (liquidity poolState) aToB in
  let currentPoint := readCurrentPoint w (activationType poolState) in
  period ← quotePeriod currentPoint (activationPoint poolState)
             (numberOfPeriod fees) (periodFrequency fees);
  tradeFeeNumerator ← quoteTradeFeeNumerator fees period;
  let fee := calculateFee outAmount tradeFeeNumerator in
  Some {| actualAmount := feeActualAmount fee; totalFee := lpFee fee |}.

End Quote.

(** ** Liquidity sizing ([src/src/CpAmm.ts], lines 252-254) *)

Record LiquidityDeltaParams : Type := {
  maxAmountTokenA : Z;
  maxAmountTokenB : Z;
  ldTokenAMint : PublicKey;
  ldTokenBMint : PublicKey;
  ldSqrtPrice : Z;
  sqrtMinPrice : Z;
  sqrtMaxPrice : Z
}.

(** What an [any]-typed result can be here. *)
Inductive JsValue : Type :=
| JsUndefined
| JsBN (value : Z).

(** The body of [getLiquidityDelta] is the comment [// TODO]: the promise
    resolves to [undefined] whatever the parameters. *)
Definition getLiquidityDelta (params : LiquidityDeltaParams) : JsValue :=
  JsUndefined.

(** ** The helpers and the sizing formula, as the specification words them *)

Module Spec.

(** Modelled from the spec: [getBaseFeeNumerator] of [./utils] (section
    4.2).  Linear mode (0) is [max(cliff - period * reductionFactor,
    floor)]; exponential mode is [cliff * (1 - reductionFactor /
    BASIS_POINT_MAX)^period], floored.  The floor numerator is not a
    field of the pool, so it is a parameter. *)
Definition getBaseFeeNumerator (floorFeeNumerator : Z)
    (mode cliff period reduction : Z) : Z :=
  if mode =? 0
  then Z.max (cliff - period * reduction) floorFeeNumerator
  else cliff * (BASIS_POINT_MAX - reduction) ^ period
       / BASIS_POINT_MAX ^ period.

(** Modelled from the spec: [getDynamicFeeNumerator] of [./utils]
    (section 4.2): [variableFeeControl * (volatilityAccumulator *
    binStep)^2 / normalizationConstant]. *)
Definition getDynamicFeeNumerator (normalizationConstant : Z)
    (volatility step control : Z) : Z :=
  control * (volatility * step) ^ 2 / normalizationConstant.

(** Modelled from the spec: [calculateFee] of [./utils] (section 4.4):
    [fee = floor(gross * feeNumerator / FEE_DENOMINATOR)], the rest is
    the net output. *)
Definition calculateFee (grossOutput feeNumerator : Z) : FeeBreakdown :=
  let fee := grossOutput * feeNumerator / FEE_DENOMINATOR in
  {| feeActualAmount := grossOutput - fee; lpFee := fee |}.

(** Modelled from the spec: [priceToSqrtPrice] of section 4.1, the exact
    [floor(sqrt(price / 10^(decimalsA - decimalsB)) * 2^64)] for the price
    [c * 10^e], which is the integer square root of
    [floor(price * 2^128 / 10^(decimalsA - decimalsB))]. *)
Definition priceToSqrtPrice (c e decimalsA decimalsB : Z) : Z :=
  let k := e - (decimalsA - decimalsB) in
  Z.sqrt (if 0 <=? k then c * 10 ^ k * 2 ^ 128
          else c * 2 ^ 128 / 10 ^ (- k)).

Definition clampSqrtPrice (p : Z) : Z :=
  Z.max MIN_SQRT_PRICE (Z.min MAX_SQRT_PRICE p).

(** Modelled from the spec: [calculateSwap] of [./utils/curve] (section
    4.3), on Q64.64 values.  A to B: [P' = L*P / (L + in*P)] rounded up,
    [out = L * (P - P') >> 128]; B to A: [P' = P + (in << 128) / L],
    [out = L * (P' - P) / (P * P')]; [P'] is clamped to the price
    bounds and the output rounds down. *)
Definition calculateSwap (amountIn sqrtP liq : Z) (aToB : bool) : Z :=
  if aToB then
    let den := liq + amountIn * sqrtP in
    let next := clampSqrtPrice ((liq * sqrtP + den - 1) / den) in
    Z.shiftr (liq * (sqrtP - next)) 128
  else
    let next := clampSqrtPrice (sqrtP + Z.shiftl amountIn 128 / liq) in
    liq * (next - sqrtP) / (sqrtP * next).

(** Modelled from the spec: the liquidity sizing of section 4.5, which
    [getLiquidityDelta] leaves unimplemented.  On Q64.64 values,
    [L_fromA = maxA / (1/P - 1/Pmax)] is [maxA * P * Pmax / (Pmax - P)]
    and [L_fromB = maxB / (P - Pmin)] is [(maxB << 128) / (P - Pmin)].
    A bound the price sits on leaves its constraint out. *)
Definition liquidityFromA (maxA p pmax : Z) : Z := maxA * p * pmax / (pmax - p).
Definition liquidityFromB (maxB p pmin : Z) : Z := Z.shiftl maxB 128 / (p - pmin).

Definition liquidityDelta (params : LiquidityDeltaParams) : Z :=
  let p := ldSqrtPrice params in
  let fromA := liquidityFromA (maxAmountTokenA params) p (sqrtMaxPrice params) in
  let fromB := liquidityFromB (maxAmountTokenB params) p (sqrtMinPrice params) in
  if p =? sqrtMaxPrice params then fromB
  else if p =? sqrtMinPrice params then fromA
  else Z.min fromA fromB.


(** Modelled from the spec: the wraparound-safe subtraction of section
    4.6, the difference modulo the width of the stored accumulator
    ([width] bytes). *)
Definition wrappingSub (width : nat) (a b : Z) : Z :=
  (a - b) mod 2 ^ (8 * Z.of_nat width).

(** Modelled from the spec: [pendingReward] of section 4.6, the checkpoint
    pattern of the fees applied to reward slot [i]. *)
Definition pendingReward (scale : N) (poolState : PoolState)
    (positionState : PositionState) (i : nat) : option Z :=
  stored ← poolRewardInfos poolState !! i;
  slot ← rewardInfos positionState !! i;
  Some (Z.shiftr
          (positionTotalLiquidity positionState
           * (bytesToBN (rewardPerTokenStored stored)
              - bytesToBN (rewardPerTokenCheckpoint slot)))
          (Z.of_N scale)
        + rewardPendings slot).

End Spec.

(** The interface of [getQuote] filled with the helpers of the
    specification. *)
Definition specUtils (floorFeeNumerator normalizationConstant : Z)
    : QuoteUtils :=
  {| calculateSwap := Spec.calculateSwap;
     getBaseFeeNumerator := Spec.getBaseFeeNumerator floorFeeNumerator;
     getDynamicFeeNumerator := Spec.getDynamicFeeNumerator normalizationConstant;
     calculateFee := Spec.calculateFee |}.

(** ** Sample snapshots *)

Module Sample.

(** The base fee of the SDK's tests (cliff numerator 1_000_000, ten
    periods of ten points, linear), with a steeper step so that the periods
    are told apart. *)
Definition fees (dyn : DynamicFeeStruct) : PoolFeesStruct :=
  {| feeSchedulerMode := 0;
     cliffFeeNumerator := 1000000;
     numberOfPeriod := 10;
     reductionFactor := 50000;
     periodFrequency := 10;
     dynamicFee := dyn |}.

Definition noDynamicFee : DynamicFeeStruct :=
  {| initialize := 0; volatilityAccumulator := 0; binStep := 0;
     variableFeeControl := 0 |}.


Definition dynamicFee : DynamicFeeStruct :=
  {| initialize := 1; volatilityAccumulator := 10000; binStep := 10;
     variableFeeControl := 40000 |}.

Definition zeros16 : list byte := repeat x00 16.
Definition one16 : list byte := x01 :: repeat x00 15.

(** A pool at price 1 ([sqrtPrice = 2^64]) activated at timestamp 1000. *)
Definition poolState (dyn : DynamicFeeStruct) : PoolState :=
  {| tokenAMint := 11%N;
     tokenBMint := 22%N;
     sqrtPrice := 2 ^ 64;
     liquidity := 2 ^ 94;
     activationType := 1;
     activationPoint := 1000;
     poolFees := fees dyn;
     feeAPerLiquidity := zeros16;
     feeBPerLiquidity := zeros16;
     poolRewardInfos := [] |}.

Definition world (dyn : DynamicFeeStruct) (nowMs : Z) : World :=
  {| poolAccounts := {[ 7%N := poolState dyn ]};
     currentSlot := 0;
     dateNow := nowMs |}.

Definition params : GetQuoteParams :=
  {| pool := 7%N; inAmount := 1000000; inputTokenMint := 11%N |}.



Definition utils : QuoteUtils := specUtils 0 100000000000.

(** A position of liquidity [2^64] whose fee-A checkpoint (1) is above
    the accumulator stored in the sample pool (0), as after a wrap. *)
Definition positionAhead : PositionState :=
  {| unlockedLiquidity := 2 ^ 64;
     vestedLiquidity := 0;
     permanentLockedLiquidity := 0;
     feeAPerTokenCheckpoint := one16;
     feeBPerTokenCheckpoint := zeros16;
     feeAPending := 7;
     feeBPending := 0;
     rewardInfos := [] |}.

(** [3 * 2^64] as sixteen little-endian bytes. *)
Definition three64 : list byte := repeat x00 8 ++ x03 :: repeat x00 7.

(** A pool whose fee-A accumulator and first reward accumulator stand at
    [3 * 2^64], and a position of liquidity [2^64] with zero checkpoints,
    fee-A pending 7 and reward pending 5. *)
Definition rewardPool : PoolState :=
  {| tokenAMint := 11%N;
     tokenBMint := 22%N;
     sqrtPrice := 2 ^ 64;
     liquidity := 2 ^ 94;
     activationType := 1;
     activationPoint := 1000;
     poolFees := fees noDynamicFee;
     feeAPerLiquidity := three64;
     feeBPerLiquidity := zeros16;
     poolRewardInfos := [ {| rewardPerTokenStored := three64 |} ] |}.

Definition rewardPosition : PositionState :=
  {| unlockedLiquidity := 2 ^ 64;
     vestedLiquidity := 0;
     permanentLockedLiquidity := 0;
     feeAPerTokenCheckpoint := zeros16;
     feeBPerTokenCheckpoint := zeros16;
     feeAPending := 7;
     feeBPending := 0;
     rewardInfos :=
       [ {| rewardPerTokenCheckpoint := zeros16; rewardPendings := 5 |} ] |}.

(** The sizing call of the SDK's tests: 1000 tokens (six decimals) of
    each side over the full price range, here at price 1. *)
Definition liquidityParams : LiquidityDeltaParams :=
  {| maxAmountTokenA := 1000 * 10 ^ 6;
     maxAmountTokenB := 1000 * 10 ^ 6;
     ldTokenAMint := 11%N;
     ldTokenBMint := 22%N;
     ldSqrtPrice := 2 ^ 64;
     sqrtMinPrice := MIN_SQRT_PRICE;
     sqrtMaxPrice := MAX_SQRT_PRICE |}.

End Sample.

(** ** Rates, factors and snapshots the further properties speak of *)

(** The [number] a decimal literal of [k] hundredths denotes: the binary64
    nearest to [k / 100], which is what the division of the two integers
    rounds to. *)
Definition hundredths (k : Z) : float :=
  (of_uint63 (Uint63.of_Z k) / 100)%float.

(** Lines 20 and 32 of [part_002]: the basis-point factors the two
    slippage helpers multiply the amount by. *)
Definition maxSlippageFactor (rate : float) : option Z :=
  BN.of_number (((100 + rate) / 100) * BASIS_POINT_MAX_number)%float.

Definition minSlippageFactor (rate : float) : option Z :=
  BN.of_number (((100 - rate) / 100) * BASIS_POINT_MAX_number)%float.

(** Both factors of [k] hundredths are the exact ones or one basis point
    below, and stay on their side of 10000. *)
Definition slippageFactorsOk (k : Z) : bool :=
  match maxSlippageFactor (hundredths k), minSlippageFactor (hundredths k) with
  | Some f, Some g =>
      ((f =? 10000 + k) || (f =? 10000 + k - 1)) && (10000 <=? f)
      && ((g =? 10000 - k) || (g =? 10000 - k - 1))
      && (0 <=? g) && (g <=? 10000)
  | _, _ => false
  end.

(** The pool snapshot with another dynamic-fee record. *)
Definition withDynamicFee (poolState : PoolState) (dyn : DynamicFeeStruct)
    : PoolState :=
  {| tokenAMint := tokenAMint poolState;
     tokenBMint := tokenBMint poolState;
     sqrtPrice := sqrtPrice poolState;
     liquidity := liquidity poolState;
     activationType := activationType poolState;
     activationPoint := activationPoint poolState;
     poolFees :=
       {| feeSchedulerMode := feeSchedulerMode (poolFees poolState);
          cliffFeeNumerator := cliffFeeNumerator (poolFees poolState);
          numberOfPeriod := numberOfPeriod (poolFees poolState);
          reductionFactor := reductionFactor (poolFees poolState);
          periodFrequency := periodFrequency (poolFees poolState);
          dynamicFee := dyn |};
     feeAPerLiquidity := feeAPerLiquidity poolState;
     feeBPerLiquidity := feeBPerLiquidity poolState;
     poolRewardInfos := poolRewardInfos poolState |}.

(** The pool snapshot with other stored fee accumulators. *)
Definition withAccumulators (poolState : PoolState)
    (accumulatorA accumulatorB : list byte) : PoolState :=
  {| tokenAMint := tokenAMint poolState;
     tokenBMint := tokenBMint poolState;
     sqrtPrice := sqrtPrice poolState;
     liquidity := liquidity poolState;
     activationType := activationType poolState;
     activationPoint := activationPoint poolState;
     poolFees := poolFees poolState;
     feeAPerLiquidity := accumulatorA;
     feeBPerLiquidity := accumulatorB;
     poolRewardInfos := poolRewardInfos poolState |}.

(** ** Pool creation parameters ([src/src/CpAmm.ts], lines 99-134) *)

(** [priceToSqrtPrice] and [decimalToQ64] come from [./math], which is not
    part of this snapshot; they are an interface, and may throw. *)
Class MathUtils : Type := {
  priceToSqrtPrice : Decimal.t -> Z -> Z -> option Z;
  decimalToQ64 : Decimal.t -> option Z
}.

Record PreparedPoolCreation : Type := {
  preparedTokenAMint : PublicKey;
  preparedTokenBMint : PublicKey;
  sqrtPriceQ64 : Z;
  liquidityQ64 : Z
}.

(** [getTokenDecimals] ([src/src/helpers/token.ts], lines 24-29): the
    [decimals] of the mint account, read over the connection; [getMint]
    throws when there is no such account.  The connection is the map of
    the mint accounts it serves. *)
Definition getTokenDecimals (mints : gmap N Z) (mint : PublicKey) : option Z :=
  mints !! mint.

Section PoolCreation.

Context `{M : MathUtils}.

(** [new BN(key.toBuffer())] reads the 32 bytes of a key big-endian: it is
    the key's value. *)
Definition preparePoolCreationParams (mints : gmap N Z)
    (tokenX tokenY : PublicKey) (initialPrice liquidity : Decimal.t)
    : option PreparedPoolCreation :=
  let '(tokenAMint, tokenBMint, initPrice) :=
    if BN.gt (Z.of_N tokenX) (Z.of_N tokenY)
    then (tokenY, tokenX, Decimal.div (Decimal.of_int 1) initialPrice)
    else (tokenX, tokenY, initialPrice) in
  tokenADecimal ← getTokenDecimals mints tokenAMint;
  tokenBDecimal ← getTokenDecimals mints tokenBMint;
  sqrtPriceQ64 ← priceToSqrtPrice initPrice tokenADecimal tokenBDecimal;
  liquidityQ64 ← decimalToQ64 liquidity;
  Some {| preparedTokenAMint := tokenAMint;
          preparedTokenBMint := tokenBMint;
          sqrtPriceQ64 := sqrtPriceQ64;
          liquidityQ64 := liquidityQ64 |}.

End PoolCreation.

(** A stand-in for [./math] in the examples: the price conversion of
    [part_002] at exact powers of ten, and a Q64 scaling done the same way. *)
Definition sampleMath : MathUtils :=
  {| priceToSqrtPrice := getSqrtPriceFromPrice exactPow10;
     decimalToQ64 := fun value =>
       Decimal.floorToBN (Decimal.mul value (Decimal.pow2 64)) |}.

(** Two mint accounts, of 6 and 9 decimals. *)
Definition sampleMints : gmap N Z := {[ 11%N := 6; 22%N := 9 ]}.

(** ** The NFTs of a user ([src/src/helpers/token.ts], lines 132-149) *)

(** What [AccountLayout.decode] yields of a token account, as far as the
    function looks: the mint and the amount (a [bigint]). *)
Record TokenAccountData : Type := {
  accountMint : PublicKey;
  accountAmount : Z
}.

(** The accounts are those [getTokenAccountsByOwner] returned for the user
    and the token program; a mint stands for the string it prints as. *)
Definition getAllNftByUser (accounts : list TokenAccountData)
    : list PublicKey :=
  fold_left
    (fun userNfts account =>
       if accountAmount account =? 1
       then userNfts ++ [accountMint account]
       else userNfts)
    accounts [].

(** * Properties *)

(** ** Slippage *)

(** C9 (the code departs from the claim).  The scenario of the
    specification holds: 1% of slippage on 1_000_000 gives 1_010_000 and
    990_000.  But the basis-point factor is a truncated binary64 product,
    and for rates with at most two decimals it can fall one basis point
    short of [10000 + 100 * rate] or [10000 - 100 * rate]: at [rate = 0.5]
    the maximum is 1_004_900 where the claim has 1_005_000, at [rate = 13]
    it is 1_129_900 for 1_130_000, and at [rate = 18.5] the minimum is
    814_900 where the claim has 815_000. *)
Theorem slippage_factor_truncated :
  getMaxAmountWithSlippage 1000000 1 = Some 1010000 /\
  getMinAmountWithSlippage 1000000 1 = Some 990000 /\
  getMaxAmountWithSlippage 1000000 0.5 = Some 1004900 /\
  1000000 * (10000 + 50) / 10000 = 1005000 /\
  getMaxAmountWithSlippage 1000000 13 = Some 1129900 /\
  1000000 * (10000 + 1300) / 10000 = 1130000 /\
  getMinAmountWithSlippage 1000000 18.5 = Some 814900 /\
  1000000 * (10000 - 1850) / 10000 = 815000.
Proof. repeat split; vm_compute; reflexivity. Qed.

(** The factor is right at 1%, whatever the amount. *)
Lemma getMaxAmountWithSlippage_one_percent (amount : Z) :
  0 <= amount ->
  getMaxAmountWithSlippage amount 1 = Some (amount * 10100 / 10000).
Proof.
  intros Hamount. unfold getMaxAmountWithSlippage.
  replace (BN.of_number ((100 + 1) / 100 * BASIS_POINT_MAX_number)%float)
    with (Some 10100) by (vm_compute; reflexivity).
  replace (BN.of_number BASIS_POINT_MAX_number)
    with (Some 10000) by (vm_compute; reflexivity).
  cbn [mbind option_bind]. unfold BN.div, BN.mul.
  change (10000 =? 0) with false. cbv iota.
  rewrite Z.quot_div_nonneg by lia. reflexivity.
Qed.

Lemma getMinAmountWithSlippage_one_percent (amount : Z) :
  0 <= amount ->
  getMinAmountWithSlippage amount 1 = Some (amount * 9900 / 10000).
Proof.
  intros Hamount. unfold getMinAmountWithSlippage.
  replace (BN.of_number ((100 - 1) / 100 * BASIS_POINT_MAX_number)%float)
    with (Some 9900) by (vm_compute; reflexivity).
  replace (BN.of_number BASIS_POINT_MAX_number)
    with (Some 10000) by (vm_compute; reflexivity).
  cbn [mbind option_bind]. unfold BN.div, BN.mul.
  change (10000 =? 0) with false. cbv iota.
  rewrite Z.quot_div_nonneg by lia. reflexivity.
Qed.

(** ** Price impact *)

(** A quote one percent short of the ideal amount has impact 1. *)
Example getPriceImpact_one_percent : getPriceImpact 990000 1000000 = 1%float.
Proof. vm_compute. reflexivity. Qed.

(** C10.  With [idealAmount = 0] nothing guards the division: the call
    returns (it has no failing path at all) and its result is NaN when
    [actualAmount] is 0 too, minus infinity when [actualAmount] is
    positive and plus infinity when it is negative. *)
Theorem getPriceImpact_zero_ideal (actualAmount : Z) :
  getPriceImpact actualAmount 0 =
    if actualAmount =? 0 then nan
    else if 0 <? actualAmount then neg_infinity else infinity.
Proof.
  unfold getPriceImpact, BN.sub, Decimal.of_BN, Decimal.of_int.
  destruct actualAmount as [|p|p]; reflexivity.
Qed.

(** ** The fee numerator of a quote *)

(** Whatever the helpers compute, the numerator handed to [calculateFee]
    is [MAX_FEE_NUMERATOR], and the call throws on a negative base
    numerator: the comparison with a [number] is true of every
    non-negative [BN], and the dynamic fee has no way into it. *)
Lemma quoteTradeFeeNumerator_ceiling `{U : QuoteUtils}
    (fees : PoolFeesStruct) (period : Z) :
  quoteTradeFeeNumerator fees period =
    if getBaseFeeNumerator (feeSchedulerMode fees) (cliffFeeNumerator fees)
         period (reductionFactor fees) <? 0
    then None else Some MAX_FEE_NUMERATOR.
Proof.
  unfold quoteTradeFeeNumerator, BN.gt_number.
  destruct (initialize (dynamicFee fees) =? 0);
    destruct (getBaseFeeNumerator _ _ _ _ <? 0); reflexivity.
Qed.

(** The quote of a fetched snapshot at a given period. *)
Lemma getQuote_at_period `{U : QuoteUtils} (w : World)
    (params : GetQuoteParams) (poolState : PoolState) (period : Z) :
  fetchPoolState w (pool params) = Some poolState ->
  quotePeriod (readCurrentPoint w (activationType poolState))
    (activationPoint poolState) (numberOfPeriod (poolFees poolState))
    (periodFrequency (poolFees poolState)) = Some period ->
  getQuote w params =
    if getBaseFeeNumerator (feeSchedulerMode (poolFees poolState))
         (cliffFeeNumerator (poolFees poolState)) period
         (reductionFactor (poolFees poolState)) <? 0
    then None
    else
      Some (let fee :=
              calculateFee
                (calculateSwap (inAmount params) (sqrtPrice poolState)
                   (liquidity poolState)
                   (bool_decide
                      (tokenAMint poolState = inputTokenMint params)))
                MAX_FEE_NUMERATOR in
            {| actualAmount := feeActualAmount fee; totalFee := lpFee fee |}).
Proof.
  intros Hfetch Hperiod. unfold getQuote.
  rewrite Hfetch. cbn [mbind option_bind].
  rewrite Hperiod. cbn [mbind option_bind].
  rewrite quoteTradeFeeNumerator_ceiling.
  destruct (getBaseFeeNumerator _ _ _ _ <? 0); reflexivity.
Qed.

(** C1 (the code departs from the claim).  The numerator [getQuote]
    charges is not [min(base + surcharge, MAX_FEE_NUMERATOR)].  The
    surcharge never reaches it ([feeNumerator.add(...)] is an expression
    statement), and [MAX_FEE_NUMERATOR] is a [number] handed to [gt], which
    is then true of every non-negative base numerator: the numerator
    charged is [MAX_FEE_NUMERATOR] itself.  On the sample pool with the
    dynamic fee enabled, base numerator 1_000_000 and surcharge 4_000,
    [getQuote] charges with 500_000_000 (fee 499_534 on the gross output
    999_069) where the claim has [min(1_000_000 + 4_000,
    MAX_FEE_NUMERATOR) = 1_004_000] (fee 1_003), and the quote is the one
    of the pool without dynamic fee.  The two constants do stand in the
    ratio of 50%. *)
Theorem getQuote_numerator_not_capped_sum :
  2 * MAX_FEE_NUMERATOR = FEE_DENOMINATOR /\
  initialize (dynamicFee (Sample.fees Sample.dynamicFee)) <> 0 /\
  getBaseFeeNumerator (QuoteUtils := Sample.utils) 0 1000000 0 50000
    = 1000000 /\
  getDynamicFeeNumerator (QuoteUtils := Sample.utils) 10000 10 40000 = 4000 /\
  Z.min (1000000 + 4000) MAX_FEE_NUMERATOR = 1004000 /\
  quoteTradeFeeNumerator (U := Sample.utils) (Sample.fees Sample.dynamicFee) 0
    = Some 500000000 /\
  getQuote (U := Sample.utils) (Sample.world Sample.dynamicFee 1000000)
    Sample.params = Some {| actualAmount := 499535; totalFee := 499534 |} /\
  calculateFee (QuoteUtils := Sample.utils) 999069 1004000
    = {| feeActualAmount := 998066; lpFee := 1003 |} /\
  getQuote (U := Sample.utils) (Sample.world Sample.dynamicFee 1000000)
    Sample.params
  = getQuote (U := Sample.utils) (Sample.world Sample.noDynamicFee 1000000)
      Sample.params.
Proof. repeat split; try (vm_compute; congruence); vm_compute; reflexivity. Qed.

(** ** The fee period of a quote *)

Lemma quotePeriod_before (currentPoint activationPoint numberOfPeriod
    periodFrequency : Z) :
  currentPoint < activationPoint ->
  quotePeriod currentPoint activationPoint numberOfPeriod periodFrequency
    = Some numberOfPeriod.
Proof.
  intros Hlt. unfold quotePeriod, BN.lt.
  destruct (Z.ltb_spec currentPoint activationPoint); [reflexivity | lia].
Qed.

(** From the activation point on the period is the number of elapsed
    periods, capped; it is the one place where the scheduler can throw
    (a zero [periodFrequency]). *)
Lemma quotePeriod_after (currentPoint activationPoint numberOfPeriod
    periodFrequency : Z) :
  activationPoint <= currentPoint ->
  quotePeriod currentPoint activationPoint numberOfPeriod periodFrequency
    = if periodFrequency =? 0 then None
      else Some (Z.min numberOfPeriod
                   (Z.quot (currentPoint - activationPoint) periodFrequency)).
Proof.
  intros Hle. unfold quotePeriod, BN.lt, BN.div, BN.sub, BN.min.
  destruct (Z.ltb_spec currentPoint activationPoint); [lia |].
  destruct (periodFrequency =? 0); [reflexivity |]. simpl.
  f_equal. destruct (Z.ltb_spec numberOfPeriod
    (Z.quot (currentPoint - activationPoint) periodFrequency)); lia.
Qed.




(** ** What a quote depends on *)




(** ** Stored accumulators *)

Lemma of_buffer_snoc (buf : list byte) (b : byte) :
  BN.of_buffer (buf ++ [b]) = BN.of_buffer buf * 256 + Z.of_N (Byte.to_N b).
Proof. unfold BN.of_buffer. rewrite fold_left_app. reflexivity. Qed.

(** The stored bytes are little-endian. *)
Lemma bytesToBN_cons (b : byte) (bytes : list byte) :
  bytesToBN (b :: bytes) = Z.of_N (Byte.to_N b) + 256 * bytesToBN bytes.
Proof.
  unfold bytesToBN, Buffer_reverse. simpl rev. rewrite of_buffer_snoc. lia.
Qed.

Lemma byte_range (b : byte) : 0 <= Z.of_N (Byte.to_N b) < 256.
Proof. pose proof (Byte.to_N_bounded b). lia. Qed.

(** A stored value of [n] bytes is an unsigned [8 * n]-bit number. *)
Lemma bytesToBN_range (bytes : list byte) :
  0 <= bytesToBN bytes < 2 ^ (8 * Z.of_nat (length bytes)).
Proof.
  induction bytes as [|b bytes IH].
  - vm_compute. split; congruence.
  - rewrite bytesToBN_cons.
    replace (8 * Z.of_nat (length (b :: bytes)))
      with (8 + 8 * Z.of_nat (length bytes)) by (simpl length; lia).
    rewrite Z.pow_add_r by lia.
    change (2 ^ 8) with 256.
    pose proof (byte_range b). nia.
Qed.

(** C7, counterexample.  A stored accumulator that has wrapped to 0 read
    against a checkpoint of 1: the code's difference is -1, negative, where
    the 128-bit modular difference is [2^128 - 1]. *)
Lemma feePerTokenStored_not_modular :
  feePerTokenStored Sample.zeros16 Sample.one16 = -1 /\
  Spec.wrappingSub 16 (bytesToBN Sample.zeros16) (bytesToBN Sample.one16)
    = 2 ^ 128 - 1 /\
  feePerTokenStored Sample.zeros16 Sample.one16
    <> Spec.wrappingSub 16 (bytesToBN Sample.zeros16) (bytesToBN Sample.one16) /\
  ~ 0 <= feePerTokenStored Sample.zeros16 Sample.one16.
Proof. repeat split; vm_compute; congruence. Qed.

(** C7, as the code has it.  The difference is the exact signed difference
    of the two stored values, taken on unbounded integers.  It coincides
    with the modular difference at the accumulator's width, and is
    non-negative, exactly when the stored accumulator is not below the
    checkpoint. *)
Theorem feePerTokenStored_signed (accumulator checkpoint : list byte) :
  feePerTokenStored accumulator checkpoint
    = bytesToBN accumulator - bytesToBN checkpoint /\
  (feePerTokenStored accumulator checkpoint
     = Spec.wrappingSub (length accumulator)
         (bytesToBN accumulator) (bytesToBN checkpoint)
   <-> bytesToBN checkpoint <= bytesToBN accumulator) /\
  (0 <= feePerTokenStored accumulator checkpoint
   <-> bytesToBN checkpoint <= bytesToBN accumulator).
Proof.
  unfold feePerTokenStored, BN.sub, Spec.wrappingSub.
  pose proof (bytesToBN_range accumulator) as Ha.
  pose proof (bytesToBN_range checkpoint) as Hc.
  set (a := bytesToBN accumulator) in *.
  set (c := bytesToBN checkpoint) in *.
  set (m := 2 ^ (8 * Z.of_nat (length accumulator))) in *.
  split; [reflexivity |]. split; [| lia].
  split.
  - intros Heq. pose proof (Z.mod_pos_bound (a - c) m ltac:(lia)). lia.
  - intros Hle. symmetry. apply Z.mod_small. lia.
Qed.

(** ** Unclaimed fees *)

Lemma shrn_nonneg (a : Z) (bits : N) :
  0 <= a -> BN.shrn a bits = Some (Z.shiftr a (Z.of_N bits)).
Proof.
  intros Ha. unfold BN.shrn. destruct (Z.ltb_spec a 0); [lia | reflexivity].
Qed.

Lemma shrn_negative (a : Z) (bits : N) : a < 0 -> BN.shrn a bits = None.
Proof.
  intros Ha. unfold BN.shrn. destruct (Z.ltb_spec a 0); [reflexivity | lia].
Qed.

(** When both products can be shifted the call returns, with this value. *)
Lemma getUnClaimReward_returns (scale : N) (poolState : PoolState)
    (positionState : PositionState) :
  0 <= positionTotalLiquidity positionState
       * feePerTokenStored (feeAPerLiquidity poolState)
           (feeAPerTokenCheckpoint positionState) ->
  0 <= positionTotalLiquidity positionState
       * feePerTokenStored (feeBPerLiquidity poolState)
           (feeBPerTokenCheckpoint positionState) ->
  getUnClaimReward scale poolState positionState =
    Some {| feeTokenA :=
              feeAPending positionState
              + Z.shiftr (positionTotalLiquidity positionState
                          * feePerTokenStored (feeAPerLiquidity poolState)
                              (feeAPerTokenCheckpoint positionState))
                         (Z.of_N scale);
            feeTokenB :=
              feeBPending positionState
              + Z.shiftr (positionTotalLiquidity positionState
                          * feePerTokenStored (feeBPerLiquidity poolState)
                              (feeBPerTokenCheckpoint positionState))
                         (Z.of_N scale);
            rewards := map rewardPendings (rewardInfos positionState) |}.
Proof.
  intros HA HB. unfold getUnClaimReward, BN.mul, BN.add.
  rewrite (shrn_nonneg _ scale HA). simpl.
  rewrite (shrn_nonneg _ scale HB). simpl.
  do 2 f_equal.
  destruct (rewardInfos positionState); reflexivity.
Qed.

(** A negative product on either side makes the whole call throw. *)
Lemma getUnClaimReward_throws (scale : N) (poolState : PoolState)
    (positionState : PositionState) :
  positionTotalLiquidity positionState
  * feePerTokenStored (feeAPerLiquidity poolState)
      (feeAPerTokenCheckpoint positionState) < 0
  \/ positionTotalLiquidity positionState
     * feePerTokenStored (feeBPerLiquidity poolState)
         (feeBPerTokenCheckpoint positionState) < 0 ->
  getUnClaimReward scale poolState positionState = None.
Proof.
  intros [HA | HB]; unfold getUnClaimReward, BN.mul.
  - rewrite (shrn_negative _ scale HA). reflexivity.
  - rewrite (shrn_negative _ scale HB).
    destruct (BN.shrn _ scale); reflexivity.
Qed.

(** C3, counterexample.  The sample position holds a fee-A checkpoint of 1
    against a stored accumulator of 0: the product is negative, the shift
    throws, and no fee is returned for either token. *)
Lemma getUnClaimReward_throws_below_checkpoint :
  positionTotalLiquidity Sample.positionAhead
  * (bytesToBN (feeAPerLiquidity (Sample.poolState Sample.noDynamicFee))
     - bytesToBN (feeAPerTokenCheckpoint Sample.positionAhead)) = - 2 ^ 64 /\
  getUnClaimReward 128 (Sample.poolState Sample.noDynamicFee)
    Sample.positionAhead = None.
Proof. split; vm_compute; reflexivity. Qed.

(** C3, as the code has it.  For every pool and position snapshot in which
    neither product [positionTotalLiquidity * (accumulator - checkpoint)]
    is negative, [getUnClaimReward] returns, with
    [feeTokenA = (positionTotalLiquidity * (feeAPerLiquidity -
    feeAPerTokenCheckpoint) >> LIQUIDITY_SCALE) + feeAPending], the same on
    the B side, and [positionTotalLiquidity = unlockedLiquidity +
    vestedLiquidity + permanentLockedLiquidity]. *)
Theorem getUnClaimReward_pending_fees (scale : N) (poolState : PoolState)
    (positionState : PositionState) :
  0 <= positionTotalLiquidity positionState
       * (bytesToBN (feeAPerLiquidity poolState)
          - bytesToBN (feeAPerTokenCheckpoint positionState)) ->
  0 <= positionTotalLiquidity positionState
       * (bytesToBN (feeBPerLiquidity poolState)
          - bytesToBN (feeBPerTokenCheckpoint positionState)) ->
  positionTotalLiquidity positionState
    = unlockedLiquidity positionState + vestedLiquidity positionState
      + permanentLockedLiquidity positionState /\
  exists r : UnClaimReward,
    getUnClaimReward scale poolState positionState = Some r /\
    feeTokenA r
      = Z.shiftr (positionTotalLiquidity positionState
                  * (bytesToBN (feeAPerLiquidity poolState)
                     - bytesToBN (feeAPerTokenCheckpoint positionState)))
                 (Z.of_N scale)
        + feeAPending positionState /\
    feeTokenB r
      = Z.shiftr (positionTotalLiquidity positionState
                  * (bytesToBN (feeBPerLiquidity poolState)
                     - bytesToBN (feeBPerTokenCheckpoint positionState)))
                 (Z.of_N scale)
        + feeBPending positionState.
Proof.
  intros HA HB. split; [reflexivity |].
  eexists. split.
  - apply getUnClaimReward_returns; assumption.
  - simpl. unfold feePerTokenStored, BN.sub. split; apply Z.add_comm.
Qed.

(** Accumulator [3 * 2^64] over liquidity [2^64]: 3 accrued, 7 pending. *)
Lemma getUnClaimReward_pending_fees_witness :
  exists r : UnClaimReward,
    getUnClaimReward 128 Sample.rewardPool Sample.rewardPosition = Some r /\
    feeTokenA r = 3 + 7 /\ feeTokenB r = 0 + 0.
Proof.
  apply (getUnClaimReward_pending_fees 128 Sample.rewardPool
           Sample.rewardPosition);
    apply Z.leb_le; vm_compute; reflexivity.
Defined.

(** ** Unclaimed rewards *)

(** C6, counterexample.  Liquidity [2^64], reward accumulator [3 * 2^64],
    checkpoint 0, pending 5: the checkpoint pattern gives [3 + 5 = 8] for
    slot 0, the code returns 5. *)
Lemma rewards_ignore_accumulator :
  Spec.pendingReward 128 Sample.rewardPool Sample.rewardPosition 0 = Some 8 /\
  (r ← getUnClaimReward 128 Sample.rewardPool Sample.rewardPosition;
   rewards r !! 0%nat) = Some 5.
Proof. split; vm_compute; reflexivity. Qed.

(** C6, as the code has it.  Whenever [getUnClaimReward] returns (neither
    fee product is negative), the reward it reports for a slot of the
    position is that slot's stored [rewardPendings], slot by slot and in
    order; neither the pool's reward accumulators nor the slots'
    checkpoints enter it. *)
Theorem getUnClaimReward_rewards_are_pendings (scale : N)
    (poolState : PoolState) (positionState : PositionState) :
  0 <= positionTotalLiquidity positionState
       * (bytesToBN (feeAPerLiquidity poolState)
          - bytesToBN (feeAPerTokenCheckpoint positionState)) ->
  0 <= positionTotalLiquidity positionState
       * (bytesToBN (feeBPerLiquidity poolState)
          - bytesToBN (feeBPerTokenCheckpoint positionState)) ->
  exists r : UnClaimReward,
    getUnClaimReward scale poolState positionState = Some r /\
    length (rewards r) = length (rewardInfos positionState) /\
    forall i : nat,
      rewards r !! i = rewardPendings <$> rewardInfos positionState !! i.
Proof.
  intros HA HB. eexists. split.
  - apply getUnClaimReward_returns; assumption.
  - simpl. split.
    + apply length_map.
    + intros i. apply list_lookup_fmap.
Qed.

(** One reward slot, returned as its pending balance. *)
Lemma getUnClaimReward_rewards_are_pendings_witness :
  exists r : UnClaimReward,
    getUnClaimReward 128 Sample.rewardPool Sample.rewardPosition = Some r /\
    length (rewards r) = 1%nat /\
    forall i : nat,
      rewards r !! i
      = rewardPendings <$> rewardInfos Sample.rewardPosition !! i.
Proof.
  apply (getUnClaimReward_rewards_are_pendings 128 Sample.rewardPool
           Sample.rewardPosition);
    apply Z.leb_le; vm_compute; reflexivity.
Defined.

(** ** Liquidity sizing *)

(** C4 (the code departs from the claim).  [getLiquidityDelta] computes
    nothing: for the sizing call of the SDK's tests, as for any other, it
    yields [undefined], where the formula of the specification gives the
    liquidity 18446744078004599633000037588. *)
Theorem getLiquidityDelta_unimplemented :
  (forall params : LiquidityDeltaParams,
     getLiquidityDelta params = JsUndefined) /\
  Spec.liquidityDelta Sample.liquidityParams = 18446744078004599633000037588 /\
  getLiquidityDelta Sample.liquidityParams
    <> JsBN (Spec.liquidityDelta Sample.liquidityParams).
Proof.
  split; [reflexivity |]. split; [vm_compute; reflexivity |].
  unfold getLiquidityDelta. discriminate.
Qed.

(** ** Price conversions *)

Lemma digits_fuel_spec (fuel : nat) (n : Z) :
  0 < n < 2 ^ Z.of_nat fuel ->
  1 <= Decimal.digits_fuel fuel n /\
  10 ^ (Decimal.digits_fuel fuel n - 1) <= n < 10 ^ Decimal.digits_fuel fuel n.
Proof.
  revert n. induction fuel as [|fuel IH]; intros n Hn.
  - simpl in Hn. lia.
  - cbn [Decimal.digits_fuel]. destruct (Z.ltb_spec n 10) as [Hlt | Hge].
    + simpl. lia.
    + assert (Hq : 0 < n / 10 < 2 ^ Z.of_nat fuel).
      { split.
        - apply Z.div_str_pos. lia.
        - apply Z.div_lt_upper_bound; [lia |].
          rewrite Nat2Z.inj_succ, Z.pow_succ_r in Hn by lia. lia. }
      destruct (IH _ Hq) as (Hd & Hlo & Hhi).
      set (k := Decimal.digits_fuel fuel (n / 10)) in *.
      split; [lia |].
      replace (1 + k - 1) with (Z.succ (k - 1)) by lia.
      replace (1 + k) with (Z.succ k) by lia.
      rewrite !Z.pow_succ_r by lia.
      pose proof (Z.mul_div_le n 10 ltac:(lia)).
      pose proof (Z.mul_succ_div_gt n 10 ltac:(lia)).
      lia.
Qed.

Lemma digits_spec (n : Z) :
  0 < n ->
  1 <= Decimal.digits n /\
  10 ^ (Decimal.digits n - 1) <= n < 10 ^ Decimal.digits n.
Proof.
  intros Hn. unfold Decimal.digits. apply digits_fuel_spec.
  split; [assumption |].
  rewrite Nat2Z.inj_succ, Z2Nat.id by apply Z.log2_nonneg.
  apply Z.log2_spec. assumption.
Qed.

(** ** Powers of ten as reals *)

Lemma p10_pos (e : Z) : (0 < p10 e)%R.
Proof. apply powerRZ_lt. lra. Qed.

Lemma p10_add (a b : Z) : p10 (a + b) = (p10 a * p10 b)%R.
Proof. apply powerRZ_add. lra. Qed.

Lemma p10_opp (a : Z) : p10 (- a) = (/ p10 a)%R.
Proof. apply powerRZ_neg'. Qed.

Lemma p10_0 : p10 0 = 1%R.
Proof. reflexivity. Qed.

Lemma p10_1 : p10 1 = 10%R.
Proof. unfold p10. simpl. lra. Qed.

Lemma p10_IZR (e : Z) : 0 <= e -> IZR (10 ^ e) = p10 e.
Proof.
  intros He. unfold p10.
  rewrite <- (Z2Nat.id e He) at 1 2.
  rewrite <- pow_IZR, pow_powerRZ. reflexivity.
Qed.

Lemma p10_sub_mul (a b : Z) : (p10 (a - b) * p10 b = p10 a)%R.
Proof. rewrite <- p10_add. f_equal. lia. Qed.

Lemma scaled_R (num den e n d : Z) :
  0 < num -> 0 < den -> Decimal.scaled num den e = (n, d) ->
  0 < n /\ 0 < d /\ (IZR n * IZR den * p10 e = IZR num * IZR d)%R.
Proof.
  intros Hnum Hden. unfold Decimal.scaled.
  destruct (Z.leb_spec 0 e) as [He | He]; intros [= <- <-].
  - assert (0 < 10 ^ e) by (apply Z.pow_pos_nonneg; lia).
    split; [lia |]. split; [nia |].
    rewrite mult_IZR, p10_IZR by assumption. ring.
  - assert (0 < 10 ^ (- e)) by (apply Z.pow_pos_nonneg; lia).
    split; [nia |]. split; [lia |].
    rewrite mult_IZR, p10_IZR by lia.
    rewrite p10_opp. pose proof (p10_pos e). field. lra.
Qed.

(** Rounding a positive ratio to the nearest integer, halves up. *)
Lemma round_half_R (n d : Z) :
  0 < n -> 0 < d ->
  (2 * IZR ((2 * n + d) / (2 * d)) * IZR d - IZR d <= 2 * IZR n
   < 2 * IZR ((2 * n + d) / (2 * d)) * IZR d + IZR d)%R.
Proof.
  intros Hn Hd. set (m := (2 * n + d) / (2 * d)).
  pose proof (Z.mul_div_le (2 * n + d) (2 * d) ltac:(lia)) as Hlo.
  pose proof (Z.mul_succ_div_gt (2 * n + d) (2 * d) ltac:(lia)) as Hhi.
  fold m in Hlo, Hhi.
  split.
  - replace (2 * IZR m * IZR d - IZR d)%R with (IZR (2 * d * m - d))
      by (rewrite minus_IZR, !mult_IZR; ring).
    replace (2 * IZR n)%R with (IZR (2 * n)) by (rewrite mult_IZR; ring).
    apply IZR_le. lia.
  - replace (2 * IZR m * IZR d + IZR d)%R with (IZR (2 * d * m + d))
      by (rewrite plus_IZR, !mult_IZR; ring).
    replace (2 * IZR n)%R with (IZR (2 * n)) by (rewrite mult_IZR; ring).
    apply IZR_lt. lia.
Qed.

Lemma p10_19 : p10 19 = 10000000000000000000%R.
Proof. rewrite <- p10_IZR by lia. reflexivity. Qed.

Lemma p10_20 : p10 20 = 100000000000000000000%R.
Proof. rewrite <- p10_IZR by lia. reflexivity. Qed.

Lemma p10_21 : p10 21 = 1000000000000000000000%R.
Proof. rewrite <- p10_IZR by lia. reflexivity. Qed.

(** The quotient of two positive integers sits within a window of two
    decades fixed by their digit counts. *)
Lemma ratio_window (num den : Z) :
  0 < num -> 0 < den ->
  let e0 := Decimal.digits num - Decimal.digits den - Decimal.precision in
  (p10 19 * p10 e0 * IZR den < IZR num < p10 21 * p10 e0 * IZR den)%R.
Proof.
  intros Hnum Hden e0.
  destruct (digits_spec num Hnum) as (Hdn & Hnlo & Hnhi).
  destruct (digits_spec den Hden) as (Hdd & Hdlo & Hdhi).
  set (dn := Decimal.digits num) in *. set (dd := Decimal.digits den) in *.
  apply IZR_le in Hnlo, Hdlo. apply IZR_lt in Hnhi, Hdhi.
  rewrite p10_IZR in Hnlo, Hdlo, Hnhi, Hdhi by lia.
  pose proof (p10_pos e0) as He0.
  pose proof (p10_pos dd) as Hpdd. pose proof (p10_pos (dd - 1)) as Hpdd1.
  assert (HQ : (0 < IZR num)%R) by (apply IZR_lt; lia).
  assert (HD : (0 < IZR den)%R) by (apply IZR_lt; lia).
  assert (E1 : p10 (dn - 1) = (p10 19 * p10 e0 * p10 dd)%R).
  { rewrite <- !p10_add. f_equal. unfold e0, Decimal.precision. lia. }
  assert (E2 : p10 dn = (p10 21 * p10 e0 * p10 (dd - 1))%R).
  { rewrite <- !p10_add. f_equal. unfold e0, Decimal.precision. lia. }
  rewrite E1 in Hnlo. rewrite E2 in Hnhi.
  pose proof (p10_pos 19). pose proof (p10_pos 21).
  split.
  - apply Rmult_lt_reg_r with (p10 dd); [assumption |].
    apply Rle_lt_trans with (p10 19 * p10 e0 * p10 dd * IZR den)%R; [lra |].
    apply Rle_lt_trans with (IZR num * IZR den)%R.
    + apply Rmult_le_compat_r; lra.
    + apply Rmult_lt_compat_l; assumption.
  - apply Rmult_lt_reg_r with (p10 (dd - 1)); [assumption |].
    apply Rlt_le_trans with (p10 21 * p10 e0 * p10 (dd - 1) * p10 (dd - 1))%R.
    + apply Rmult_lt_compat_r; assumption.
    + replace (p10 21 * p10 e0 * IZR den * p10 (dd - 1))%R
        with (p10 21 * p10 e0 * p10 (dd - 1) * IZR den)%R by ring.
      apply Rmult_le_compat_l; [| assumption].
      apply Rlt_le.
      apply Rmult_lt_0_compat; [apply Rmult_lt_0_compat |]; assumption.
Qed.

Lemma round_ratio_spec (num den m e : Z) :
  0 < num -> 0 < den -> Decimal.round_ratio num den = (m, e) ->
  10 ^ 19 <= m < 10 ^ 20 /\
  ((IZR m - / 2) * p10 e * IZR den <= IZR num
   <= (IZR m + / 2) * p10 e * IZR den)%R.
Proof.
  intros Hnum Hden. unfold Decimal.round_ratio.
  pose proof (ratio_window num den Hnum Hden) as Hwin. cbv zeta in Hwin.
  set (e0 := Decimal.digits num - Decimal.digits den - Decimal.precision) in *.
  assert (HQ : (0 < IZR num)%R) by (apply IZR_lt; lia).
  assert (HD : (0 < IZR den)%R) by (apply IZR_lt; lia).
  rewrite p10_19, p10_21 in Hwin.
  destruct (Decimal.scaled num den e0) as [n0 d0] eqn:Hs0. cbn [fst snd].
  destruct (scaled_R _ _ _ _ _ Hnum Hden Hs0) as (Hn0 & Hd0 & Heq0).
  change (10 ^ Decimal.precision) with 100000000000000000000.
  change (10 ^ (Decimal.precision - 1)) with 10000000000000000000.
  set (e1 := if n0 <? d0 * 100000000000000000000 then e0 else e0 + 1).
  assert (Hwin1 : (10000000000000000000 * p10 e1 * IZR den <= IZR num
                   < 100000000000000000000 * p10 e1 * IZR den)%R).
  { assert (Hd0R : (0 < IZR d0)%R) by (apply IZR_lt; lia).
    pose proof (p10_pos e0) as He0.
    assert (HDE : (0 < IZR den * p10 e0)%R) by (apply Rmult_lt_0_compat; assumption).
    unfold e1. destruct (Z.ltb_spec n0 (d0 * 100000000000000000000)) as [Hlt | Hge].
    - split; [lra |].
      apply IZR_lt in Hlt. rewrite mult_IZR in Hlt.
      apply Rmult_lt_reg_r with (IZR d0); [assumption |].
      rewrite <- Heq0. nra.
    - rewrite p10_add, p10_1.
      split; [| lra].
      apply IZR_le in Hge. rewrite mult_IZR in Hge.
      apply Rmult_le_reg_r with (IZR d0); [assumption |].
      rewrite <- Heq0. nra. }
  clearbody e1. clear Hwin Hs0 Hn0 Hd0 Heq0 n0 d0.
  destruct (Decimal.scaled num den e1) as [n d] eqn:Hs.
  destruct (scaled_R _ _ _ _ _ Hnum Hden Hs) as (Hn & Hd & Heq).
  pose proof (round_half_R n d Hn Hd) as Hhalf.
  set (m0 := (2 * n + d) / (2 * d)) in *.
  assert (HdR : (0 < IZR d)%R) by (apply IZR_lt; lia).
  pose proof (p10_pos e1) as He1.
  assert (HDE : (0 < IZR den * p10 e1)%R) by (apply Rmult_lt_0_compat; assumption).
  assert (Hmid : ((IZR m0 - / 2) * p10 e1 * IZR den <= IZR num
                  < (IZR m0 + / 2) * p10 e1 * IZR den)%R).
  { split.
    - apply Rmult_le_reg_r with (IZR d); [assumption |].
      rewrite <- Heq. nra.
    - apply Rmult_lt_reg_r with (IZR d); [assumption |].
      rewrite <- Heq. nra. }
  assert (Hm0 : 10000000000000000000 <= m0 <= 100000000000000000000).
  { split.
    - assert (H : (IZR 10000000000000000000 < IZR (m0 + 1))%R).
      { rewrite plus_IZR. nra. }
      apply lt_IZR in H. lia.
    - assert (H : (IZR (m0 - 1) < IZR 100000000000000000000)%R).
      { rewrite minus_IZR. nra. }
      apply lt_IZR in H. lia. }
  destruct (Z.eqb_spec m0 100000000000000000000) as [Hmax | Hmax];
    intros [= <- <-].
  - split; [lia |]. rewrite Hmax in Hmid. rewrite p10_add, p10_1. nra.
  - split; [lia |]. lra.
Qed.

(** ** Relative error *)

Lemma round_ratio_near (num den m e : Z) :
  0 < num -> 0 < den -> Decimal.round_ratio num den = (m, e) ->
  0 < m /\ near (IZR num) (Rval m e * IZR den).
Proof.
  intros Hnum Hden Hr.
  destruct (round_ratio_spec _ _ _ _ Hnum Hden Hr) as ((Hlo & _) & Hb).
  change (10 ^ 19) with 10000000000000000000 in Hlo.
  split; [lia |].
  apply IZR_le in Hlo.
  assert (HD : (0 < IZR den)%R) by (apply IZR_lt; lia).
  pose proof (p10_pos e) as He.
  assert (HDE : (0 < p10 e * IZR den)%R) by (apply Rmult_lt_0_compat; assumption).
  unfold near, bnd, Rval, eps. split; nra.
Qed.

(** ** Positive finite decimals and their values *)

Lemma isPositive_inv (x : Decimal.t) :
  isPositive x = true ->
  exists c e, x = Decimal.Finite false c e /\ 0 < c.
Proof.
  destruct x as [| |[|] c e]; try discriminate.
  simpl. intros H. exists c, e. split; [reflexivity | lia].
Qed.

Lemma Rval_pos (c e : Z) : 0 < c -> (0 < Rval c e)%R.
Proof.
  intros Hc. apply Rmult_lt_0_compat; [apply IZR_lt; lia | apply p10_pos].
Qed.

Lemma valR_pos (x : Decimal.t) : isPositive x = true -> (0 < valR x)%R.
Proof.
  intros H. destruct (isPositive_inv x H) as (c & e & -> & Hc).
  apply Rval_pos. assumption.
Qed.

Lemma div_near (x y : Decimal.t) :
  isPositive x = true -> isPositive y = true ->
  isPositive (Decimal.div x y) = true /\
  near (valR x) (valR (Decimal.div x y) * valR y).
Proof.
  intros Hx Hy.
  destruct (isPositive_inv x Hx) as (cx & ex & -> & Hcx).
  destruct (isPositive_inv y Hy) as (cy & ey & -> & Hcy).
  unfold Decimal.div.
  destruct (Z.eqb_spec cy 0); [lia |]. destruct (Z.eqb_spec cx 0); [lia |].
  destruct (Decimal.round_ratio cx cy) as [m e] eqn:Hr.
  destruct (round_ratio_near _ _ _ _ Hcx Hcy Hr) as (Hm & Hn).
  simpl. split; [apply Z.ltb_lt; assumption |].
  unfold near, bnd, Rval in *.
  replace (e + ex - ey) with (e + (ex - ey)) by lia.
  rewrite p10_add.
  pose proof (p10_sub_mul ex ey) as Hsub.
  pose proof (p10_pos ex) as Hex.
  replace (IZR m * (p10 e * p10 (ex - ey)) * (IZR cy * p10 ey))%R
    with (IZR m * p10 e * IZR cy * (p10 (ex - ey) * p10 ey))%R by ring.
  rewrite Hsub. split; nra.
Qed.

Lemma mul_near (x y : Decimal.t) :
  isPositive x = true -> isPositive y = true ->
  isPositive (Decimal.mul x y) = true /\
  near (valR x * valR y) (valR (Decimal.mul x y)).
Proof.
  intros Hx Hy.
  destruct (isPositive_inv x Hx) as (cx & ex & -> & Hcx).
  destruct (isPositive_inv y Hy) as (cy & ey & -> & Hcy).
  unfold Decimal.mul.
  destruct (Z.eqb_spec cx 0); [lia |]. destruct (Z.eqb_spec cy 0); [lia |].
  destruct (Decimal.round_ratio (cx * cy) 1) as [m e] eqn:Hr.
  assert (Hcxy : 0 < cx * cy) by nia.
  destruct (round_ratio_near _ _ _ _ Hcxy Z.lt_0_1 Hr) as (Hm & Hn).
  simpl. split; [apply Z.ltb_lt; assumption |].
  unfold near, bnd, Rval in *. rewrite mult_IZR in Hn.
  rewrite !p10_add.
  pose proof (p10_pos ex) as Hex. pose proof (p10_pos ey) as Hey.
  assert (Hxy : (0 < p10 ex * p10 ey)%R) by (apply Rmult_lt_0_compat; assumption).
  split; nra.
Qed.

Lemma pow2_near (n : Z) :
  0 <= n ->
  isPositive (Decimal.pow2 n) = true /\
  near (IZR (2 ^ n)) (valR (Decimal.pow2 n)).
Proof.
  intros Hn. unfold Decimal.pow2.
  assert (Hp : 0 < 2 ^ n) by (apply Z.pow_pos_nonneg; lia).
  destruct (Decimal.round_ratio (2 ^ n) 1) as [m e] eqn:Hr.
  destruct (round_ratio_near _ _ _ _ Hp Z.lt_0_1 Hr) as (Hm & Hnear).
  simpl. split; [apply Z.ltb_lt; assumption |].
  unfold near, bnd in *. lra.
Qed.

Lemma of_BN_pos (s : Z) :
  0 < s ->
  isPositive (Decimal.of_BN s) = true /\ valR (Decimal.of_BN s) = IZR s.
Proof.
  intros Hs. unfold Decimal.of_BN.
  destruct (Z.ltb_spec s 0); [lia |]. simpl.
  rewrite Z.abs_eq by lia. split; [apply Z.ltb_lt; assumption |].
  unfold Rval. rewrite p10_0. ring.
Qed.

Lemma floorToBN_spec (x : Decimal.t) :
  isPositive x = true ->
  exists s, Decimal.floorToBN x = Some s /\
    0 <= s /\ (IZR s <= valR x < IZR s + 1)%R.
Proof.
  intros Hx. destruct (isPositive_inv x Hx) as (c & e & -> & Hc).
  simpl. destruct (Z.leb_spec 0 e) as [He | He]; eexists; (split; [reflexivity |]).
  - assert (0 < 10 ^ e) by (apply Z.pow_pos_nonneg; lia).
    split; [nia |]. unfold Rval. rewrite mult_IZR, p10_IZR by lia. lra.
  - assert (Hp : 0 < 10 ^ (- e)) by (apply Z.pow_pos_nonneg; lia).
    split; [apply Z.div_pos; lia |].
    pose proof (Z.mul_div_le c (10 ^ (- e)) Hp) as Hlo.
    pose proof (Z.mul_succ_div_gt c (10 ^ (- e)) Hp) as Hhi.
    set (q := c / 10 ^ (- e)) in *.
    apply IZR_le in Hlo. apply IZR_lt in Hhi.
    rewrite mult_IZR, p10_IZR in Hlo, Hhi by lia.
    replace (Z.succ q) with (q + 1) in Hhi by lia. rewrite plus_IZR in Hhi.
    unfold Rval. pose proof (p10_pos e) as Hpe.
    assert (Hinv : (p10 (- e) * p10 e = 1)%R).
    { rewrite <- p10_add. replace (- e + e) with 0 by lia. apply p10_0. }
    split.
    + apply Rmult_le_reg_r with (p10 (- e)); [apply p10_pos |].
      replace (IZR c * p10 e * p10 (- e))%R
        with (IZR c * (p10 (- e) * p10 e))%R by ring.
      rewrite Hinv. lra.
    + apply Rmult_lt_reg_r with (p10 (- e)); [apply p10_pos |].
      replace (IZR c * p10 e * p10 (- e))%R
        with (IZR c * (p10 (- e) * p10 e))%R by ring.
      rewrite Hinv. lra.
Qed.

Lemma half_even (a : Z) : Z.even a = true -> a = 2 * (a / 2).
Proof.
  intros H. apply Z.even_spec in H. destruct H as [k ->].
  rewrite Z.mul_comm, Z.div_mul by lia. lia.
Qed.

Lemma round_sqrt_spec (c e m f : Z) :
  0 < c -> Decimal.round_sqrt c e = (m, f) ->
  0 < m /\ near (Rval c e) (Rval m f * Rval m f).
Proof.
  intros Hc. unfold Decimal.round_sqrt.
  destruct (digits_spec c Hc) as (Hdc & Hclo & Hchi).
  set (dc := Decimal.digits c) in *.
  change Decimal.precision with 20.
  change (10 ^ 20) with 100000000000000000000.
  change (10 ^ (20 - 1)) with 10000000000000000000.
  set (g0 := 2 * 20 - dc).
  set (g := if Z.even (e - g0) then g0 else g0 - 1).
  assert (Hg : (g = g0 \/ g = g0 - 1) /\ e - g = 2 * ((e - g) / 2)).
  { unfold g. destruct (Z.even (e - g0)) eqn:Hev.
    - split; [left; reflexivity | apply half_even; assumption].
    - split; [right; reflexivity |]. apply half_even.
      replace (e - (g0 - 1)) with (Z.succ (e - g0)) by lia.
      rewrite Z.even_succ, <- Z.negb_even, Hev. reflexivity. }
  destruct Hg as (Hg & Hhalf). clearbody g.
  set (f0 := (e - g) / 2) in *.
  apply IZR_le in Hclo. apply IZR_lt in Hchi.
  rewrite p10_IZR in Hclo, Hchi by lia.
  pose proof (p10_pos g) as HG.
  assert (Hwin : (p10 38 <= IZR c * p10 g < p10 40)%R).
  { assert (E38 : p10 38 = 100000000000000000000000000000000000000%R)
      by (rewrite <- p10_IZR by lia; reflexivity).
    assert (E39 : p10 39 = 1000000000000000000000000000000000000000%R)
      by (rewrite <- p10_IZR by lia; reflexivity).
    assert (E40 : p10 40 = 10000000000000000000000000000000000000000%R)
      by (rewrite <- p10_IZR by lia; reflexivity).
    destruct Hg as [-> | ->].
    - assert (E1 : (p10 (dc - 1) * p10 g0 = p10 39)%R)
        by (rewrite <- p10_add; f_equal; unfold g0; lia).
      assert (E2 : (p10 dc * p10 g0 = p10 40)%R)
        by (rewrite <- p10_add; f_equal; unfold g0; lia).
      split; nra.
    - assert (E1 : (p10 (dc - 1) * p10 (g0 - 1) = p10 38)%R)
        by (rewrite <- p10_add; f_equal; unfold g0; lia).
      assert (E2 : (p10 dc * p10 (g0 - 1) = p10 39)%R)
        by (rewrite <- p10_add; f_equal; unfold g0; lia).
      split; nra. }
  rewrite <- (p10_IZR 38), <- (p10_IZR 40) in Hwin by lia.
  change (10 ^ 38) with 100000000000000000000000000000000000000 in Hwin.
  change (10 ^ 40) with 10000000000000000000000000000000000000000 in Hwin.
  clear Hclo Hchi Hg.
  destruct (Decimal.scaled c 1 (- g)) as [n d] eqn:Hs.
  destruct (scaled_R _ _ _ _ _ Hc Z.lt_0_1 Hs) as (Hn & Hd & Heq).
  assert (Heq' : (IZR n = IZR c * p10 g * IZR d)%R).
  { assert (Hinv : (p10 (- g) * p10 g = 1)%R).
    { rewrite <- p10_add. replace (- g + g) with 0 by lia. apply p10_0. }
    apply (f_equal (fun t => (t * p10 g)%R)) in Heq.
    replace (IZR n * 1 * p10 (- g) * p10 g)%R
      with (IZR n * (p10 (- g) * p10 g))%R in Heq by ring.
    rewrite Hinv in Heq. lra. }
  clear Heq Hs.
  assert (HdR : (0 < IZR d)%R) by (apply IZR_lt; lia).
  assert (Hnd : 100000000000000000000000000000000000000 * d <= n
                < 10000000000000000000000000000000000000000 * d).
  { split.
    - apply le_IZR. rewrite mult_IZR, Heq'. nra.
    - apply lt_IZR. rewrite mult_IZR, Heq'. nra. }
  pose proof (Z.mul_div_le n d Hd) as Hqlo.
  pose proof (Z.mul_succ_div_gt n d Hd) as Hqhi.
  set (q := n / d) in *.
  assert (Hq : 100000000000000000000000000000000000000 <= q
               < 10000000000000000000000000000000000000000) by nia.
  pose proof (Z.sqrt_spec q ltac:(lia)) as Hsq. cbv zeta in Hsq.
  set (s0 := Z.sqrt q) in *.
  assert (Hs0 : 10000000000000000000 <= s0 < 100000000000000000000) by nia.
  set (r := if (2 * s0 + 1) ^ 2 * d <=? 4 * n then s0 + 1 else s0).
  assert (Hr : 10000000000000000000 <= r <= 100000000000000000000 /\
               (2 * r - 1) ^ 2 * d <= 4 * n < (2 * r + 1) ^ 2 * d).
  { unfold r. destruct (Z.leb_spec ((2 * s0 + 1) ^ 2 * d) (4 * n)) as [Hup | Hdn].
    - split; [lia |]. replace (2 * (s0 + 1) - 1) with (2 * s0 + 1) by lia.
      split; [assumption | nia].
    - split; [lia |]. split; [nia | assumption]. }
  clearbody r. destruct Hr as (Hr & Hr2).
  assert (HrR : ((2 * IZR r - 1) * (2 * IZR r - 1) <= 4 * (IZR c * p10 g)
                 < (2 * IZR r + 1) * (2 * IZR r + 1))%R).
  { destruct Hr2 as (Hlo & Hhi). apply IZR_le in Hlo. apply IZR_lt in Hhi.
    rewrite !mult_IZR, Heq' in Hlo, Hhi.
    rewrite Z.pow_2_r, mult_IZR, minus_IZR, mult_IZR in Hlo.
    rewrite Z.pow_2_r, mult_IZR, plus_IZR, mult_IZR in Hhi.
    split.
    - apply Rmult_le_reg_r with (IZR d); [assumption | lra].
    - apply Rmult_lt_reg_r with (IZR d); [assumption | lra]. }
  assert (HR : (10000000000000000000 <= IZR r)%R) by (apply IZR_le; lia).
  assert (Hval : Rval c e = (IZR c * p10 g * (p10 f0 * p10 f0))%R).
  { unfold Rval. rewrite <- !p10_add, Rmult_assoc, <- p10_add.
    do 2 f_equal. lia. }
  pose proof (p10_pos f0) as HF.
  assert (HFF : (0 < p10 f0 * p10 f0)%R) by (apply Rmult_lt_0_compat; assumption).
  assert (Hnear : near (Rval c e) (IZR r * p10 f0 * (IZR r * p10 f0))).
  { rewrite Hval. unfold near, bnd, eps.
    assert (H1 : ((1 - / 1000000000000000000) * (IZR r * IZR r)
                  <= IZR c * p10 g)%R) by nra.
    assert (H2 : (IZR c * p10 g
                  <= (1 + / 1000000000000000000) * (IZR r * IZR r))%R) by nra.
    split; nra. }
  destruct (Z.eqb_spec r 100000000000000000000) as [Hmax | Hmax];
    intros [= <- <-].
  - split; [lia |]. unfold Rval. rewrite p10_add, p10_1.
    rewrite Hmax in Hnear.
    replace (10000000000000000000 * (p10 f0 * 10))%R
      with (100000000000000000000 * p10 f0)%R by ring.
    exact Hnear.
  - split; [lia |]. exact Hnear.
Qed.

Lemma sqrt_near (x : Decimal.t) :
  isPositive x = true ->
  isPositive (Decimal.sqrt x) = true /\
  near (valR x) (valR (Decimal.sqrt x) * valR (Decimal.sqrt x)).
Proof.
  intros Hx. destruct (isPositive_inv x Hx) as (c & e & -> & Hc).
  unfold Decimal.sqrt. destruct (Z.eqb_spec c 0); [lia |].
  destruct (Decimal.round_sqrt c e) as [m f] eqn:Hr.
  destruct (round_sqrt_spec _ _ _ _ Hc Hr) as (Hm & Hnear).
  simpl. split; [apply Z.ltb_lt; assumption | exact Hnear].
Qed.

(** ** Composing relative bounds *)

Lemma bnd_refl (x : R) : bnd 1 1 x x.
Proof. unfold bnd. lra. Qed.

Lemma bnd_weaken (lo hi lo' hi' x y : R) :
  bnd lo hi x y -> (0 <= y)%R -> (lo' <= lo)%R -> (hi <= hi')%R ->
  bnd lo' hi' x y.
Proof. unfold bnd. intros [H1 H2] Hy Hlo Hhi. split; nra. Qed.

Lemma bnd_trans (a b c d x y z : R) :
  bnd a b x y -> bnd c d y z -> (0 <= a)%R -> (0 <= b)%R ->
  bnd (a * c) (b * d) x z.
Proof. unfold bnd. intros [H1 H2] [H3 H4] Ha Hb. split; nra. Qed.

Lemma bnd_sym (a b x y : R) :
  bnd a b x y -> (0 < a)%R -> (0 < b)%R -> bnd (/ b) (/ a) y x.
Proof.
  unfold bnd. intros [H1 H2] Ha Hb. split.
  - apply Rmult_le_reg_l with b; [assumption |].
    rewrite <- Rmult_assoc, Rinv_r by lra. lra.
  - apply Rmult_le_reg_l with a; [assumption |].
    rewrite <- Rmult_assoc, Rinv_r by lra. lra.
Qed.

Lemma bnd_mul (a b c d x y x' y' : R) :
  bnd a b x y -> bnd c d x' y' ->
  (0 <= a)%R -> (0 <= c)%R -> (0 <= y)%R -> (0 <= y')%R ->
  bnd (a * c) (b * d) (x * x') (y * y').
Proof.
  unfold bnd. intros [H1 H2] [H3 H4] Ha Hc Hy Hy'.
  assert (0 <= a * y)%R by nra. assert (0 <= c * y')%R by nra.
  split.
  - replace (a * c * (y * y'))%R with (a * y * (c * y'))%R by ring.
    apply Rmult_le_compat; lra.
  - replace (b * d * (y * y'))%R with (b * y * (d * y'))%R by ring.
    apply Rmult_le_compat; lra.
Qed.

Lemma bnd_cancel_r (a b x y t : R) :
  bnd a b (x * t) (y * t) -> (0 < t)%R -> bnd a b x y.
Proof.
  unfold bnd. intros [H1 H2] Ht. split.
  - apply Rmult_le_reg_r with t; [assumption | lra].
  - apply Rmult_le_reg_r with t; [assumption | lra].
Qed.

Ltac side := unfold eps; lra.

(** The arithmetic heart of the round trip: ten rounded or truncated
    steps leave the price within one part in a billion. *)
Lemma round_trip_core (P T V1 V2 VK V3 S Vy1 Vy2 VD Vy3 K64 : R) :
  (0 < P)%R -> (0 < T)%R -> (0 < V1)%R -> (0 < V2)%R -> (0 < VK)%R ->
  (0 < V3)%R -> (0 < Vy1)%R -> (0 < Vy2)%R -> (0 < VD)%R -> (0 < Vy3)%R ->
  (0 < K64)%R ->
  near P (V1 * T) ->
  near V1 (V2 * V2) ->
  near K64 VK ->
  near (V2 * VK) V3 ->
  (S <= V3 < S + 1)%R -> (4295048016 <= S)%R ->
  near (S * S) Vy1 ->
  near (Vy1 * T) Vy2 ->
  near (K64 * K64) VD ->
  near Vy2 (Vy3 * VD) ->
  (Rabs (Vy3 - P) <= P / 1000000000)%R.
Proof.
  intros HP HT HV1 HV2 HVK HV3 HVy1 HVy2 HVD HVy3 HK64
    H1 H2 HK H3 Hfl Hmin Hy1 Hy2 HD Hy3.
  unfold near in *.
  assert (HS : (0 < S)%R) by lra.
  assert (HV22 : (0 < V2 * V2)%R) by (apply Rmult_lt_0_compat; assumption).
  assert (HSS : (0 < S * S)%R) by (apply Rmult_lt_0_compat; assumption).
  (* forward *)
  pose proof (bnd_mul _ _ _ _ _ _ _ _ H2 (bnd_refl T)
                ltac:(side) ltac:(lra) ltac:(lra) ltac:(lra)) as F1.
  pose proof (bnd_trans _ _ _ _ _ _ _ H1 F1 ltac:(side) ltac:(side)) as F2.
  assert (Hbeta : bnd 1 (1 + / 4295048016) V3 S).
  { unfold bnd. split; [lra |].
    assert (1 <= S * / 4295048016)%R by lra. lra. }
  pose proof (bnd_trans _ _ _ _ _ _ _ H3 Hbeta ltac:(side) ltac:(side)) as F3.
  pose proof (bnd_mul _ _ _ _ _ _ _ _ (bnd_refl V2) HK
                ltac:(lra) ltac:(side) ltac:(lra) ltac:(lra)) as F4.
  pose proof (bnd_trans _ _ _ _ _ _ _ F4 F3 ltac:(side) ltac:(side)) as F5.
  pose proof (bnd_mul _ _ _ _ _ _ _ _ F5 F5
                ltac:(side) ltac:(side) ltac:(lra) ltac:(lra)) as F6.
  (* backward *)
  pose proof (bnd_sym _ _ _ _ Hy1 ltac:(side) ltac:(side)) as B1.
  pose proof (bnd_mul _ _ _ _ _ _ _ _ B1 (bnd_refl T)
                ltac:(side) ltac:(lra) ltac:(lra) ltac:(lra)) as B2.
  pose proof (bnd_sym _ _ _ _ Hy2 ltac:(side) ltac:(side)) as B3.
  pose proof (bnd_trans _ _ _ _ _ _ _ B3 B2 ltac:(side) ltac:(side)) as B4.
  pose proof (bnd_sym _ _ _ _ Hy3 ltac:(side) ltac:(side)) as B5.
  pose proof (bnd_trans _ _ _ _ _ _ _ B5 B4 ltac:(side) ltac:(side)) as B6.
  pose proof (bnd_mul _ _ _ _ _ _ _ _ (bnd_refl Vy3) HD
                ltac:(lra) ltac:(side) ltac:(lra) ltac:(lra)) as B7.
  pose proof (bnd_trans _ _ _ _ _ _ _ B7 B6 ltac:(side) ltac:(side)) as B8.
  (* link *)
  pose proof (bnd_sym _ _ _ _ F6 ltac:(side) ltac:(side)) as L1.
  assert (HVK2 : (0 <= V2 * K64 * (V2 * K64))%R) by nra.
  pose proof (bnd_mul _ _ _ _ _ _ _ _ L1 (bnd_refl T)
                ltac:(side) ltac:(lra) HVK2 ltac:(lra)) as L2.
  pose proof (bnd_trans _ _ _ _ _ _ _ B8 L2 ltac:(side) ltac:(side)) as L3.
  replace (V2 * K64 * (V2 * K64) * T)%R
    with (V2 * V2 * T * (K64 * K64))%R in L3 by ring.
  apply bnd_cancel_r in L3; [| nra].
  pose proof (bnd_sym _ _ _ _ F2 ltac:(side) ltac:(side)) as L5.
  pose proof (bnd_trans _ _ _ _ _ _ _ L3 L5 ltac:(side) ltac:(side)) as L6.
  apply (bnd_weaken _ _ (1 - / 1000000000) (1 + / 1000000000)) in L6;
    [| lra | side | side].
  unfold bnd in L6. apply Rabs_le. lra.
Qed.

(** On a positive price and a positive scale the conversion returns. *)
Lemma getSqrtPriceFromPrice_returns (numberPow10 : Z -> Decimal.t)
    (price : Decimal.t) (tokenADecimal tokenBDecimal : Z) :
  isPositive price = true ->
  isPositive (numberPow10 (tokenADecimal - tokenBDecimal)) = true ->
  exists s : Z,
    getSqrtPriceFromPrice numberPow10 price tokenADecimal tokenBDecimal
      = Some s /\ 0 <= s.
Proof.
  intros HP HT. unfold getSqrtPriceFromPrice.
  destruct (div_near price _ HP HT) as (H1p & _).
  destruct (sqrt_near _ H1p) as (H2p & _).
  assert (H64 : 0 <= 64) by lia.
  destruct (pow2_near 64 H64) as (HKp & _).
  destruct (mul_near _ _ H2p HKp) as (H3p & _).
  destruct (floorToBN_spec _ H3p) as (s & Hs & Hs0 & _).
  exists s. split; assumption.
Qed.

(** C8, counterexample.  For the price 36 with equal decimals the exact
    value [floor(sqrt(36) * 2^64)] is [6 * 2^64 =
    110680464442257309696], of 21 digits; the product is rounded to 20
    significant digits before the floor, and the code returns
    110680464442257309700, above the exact value. *)
Lemma getSqrtPriceFromPrice_rounds_up :
  Spec.priceToSqrtPrice 36 0 6 6 = 110680464442257309696 /\
  getSqrtPriceFromPrice exactPow10 (Decimal.Finite false 36 0) 6 6
    = Some 110680464442257309700 /\
  getSqrtPriceFromPrice exactPow10 (Decimal.Finite false 36 0) 6 6
    <> Some (Spec.priceToSqrtPrice 36 0 6 6).
Proof. repeat split; vm_compute; congruence. Qed.

(** C8, as the code has it.  [getSqrtPriceFromPrice] is the floor of
    [sqrt(price / 10^(dA - dB)) * 2^64] evaluated in decimal.js arithmetic
    of 20 significant digits (quotient, root and product each rounded
    half-up).  For every positive price, whatever positive decimal the
    scale [10 ** (dA - dB)] becomes, if the sqrt price it returns is at
    least [MIN_SQRT_PRICE] then [getPriceFromSqrtPrice] maps it back to a
    positive price within a relative error of [10^-9] of the original. *)
Theorem price_round_trip (numberPow10 : Z -> Decimal.t) (price : Decimal.t)
    (tokenADecimal tokenBDecimal s : Z) :
  isPositive price = true ->
  isPositive (numberPow10 (tokenADecimal - tokenBDecimal)) = true ->
  getSqrtPriceFromPrice numberPow10 price tokenADecimal tokenBDecimal
    = Some s ->
  MIN_SQRT_PRICE <= s ->
  isPositive (getPriceFromSqrtPrice numberPow10 s tokenADecimal
                tokenBDecimal) = true /\
  (Rabs (valR (getPriceFromSqrtPrice numberPow10 s tokenADecimal
                 tokenBDecimal) - valR price)
   <= valR price / 1000000000)%R.
Proof.
  intros HP HT. unfold getSqrtPriceFromPrice, getPriceFromSqrtPrice.
  set (scale := numberPow10 (tokenADecimal - tokenBDecimal)) in *.
  destruct (div_near price scale HP HT) as (H1p & H1).
  destruct (sqrt_near _ H1p) as (H2p & H2).
  assert (H64 : 0 <= 64) by lia. assert (H128 : 0 <= 128) by lia.
  destruct (pow2_near 64 H64) as (HKp & HK).
  destruct (mul_near _ _ H2p HKp) as (H3p & H3).
  destruct (floorToBN_spec _ H3p) as (s' & Hs' & Hs0 & Hfl).
  rewrite Hs'. intros [= <-] Hmin.
  unfold MIN_SQRT_PRICE in Hmin.
  assert (Hspos : 0 < s') by lia.
  destruct (of_BN_pos s' Hspos) as (Hdp & Hd).
  destruct (mul_near _ _ Hdp Hdp) as (Hy1p & Hy1).
  destruct (mul_near _ _ Hy1p HT) as (Hy2p & Hy2).
  destruct (pow2_near 128 H128) as (HDp & HD).
  destruct (div_near _ _ Hy2p HDp) as (Hy3p & Hy3).
  split; [exact Hy3p |].
  rewrite Hd in Hy1.
  change (2 ^ 128) with (2 ^ 64 * 2 ^ 64) in HD. rewrite mult_IZR in HD.
  apply (round_trip_core (valR price) (valR scale)
           (valR (Decimal.div price scale))
           (valR (Decimal.sqrt (Decimal.div price scale)))
           (valR (Decimal.pow2 64))
           (valR (Decimal.mul (Decimal.sqrt (Decimal.div price scale))
                    (Decimal.pow2 64)))
           (IZR s')
           (valR (Decimal.mul (Decimal.of_BN s') (Decimal.of_BN s')))
           (valR (Decimal.mul
                    (Decimal.mul (Decimal.of_BN s') (Decimal.of_BN s')) scale))
           (valR (Decimal.pow2 128))
           (valR (Decimal.div
                    (Decimal.mul
                       (Decimal.mul (Decimal.of_BN s') (Decimal.of_BN s'))
                       scale)
                    (Decimal.pow2 128)))
           (IZR (2 ^ 64)));
    try (apply valR_pos; assumption); try assumption.
  - apply IZR_lt. reflexivity.
  - apply IZR_le. exact Hmin.
Qed.

(** The price 36 and back. *)
Lemma price_round_trip_witness :
  isPositive (getPriceFromSqrtPrice exactPow10 110680464442257309700 6 6)
    = true /\
  (Rabs (valR (getPriceFromSqrtPrice exactPow10 110680464442257309700 6 6)
         - valR (Decimal.Finite false 36 0))
   <= valR (Decimal.Finite false 36 0) / 1000000000)%R.
Proof.
  apply (price_round_trip exactPow10 (Decimal.Finite false 36 0) 6 6
           110680464442257309700);
    [reflexivity | reflexivity | vm_compute; reflexivity
    | apply Z.leb_le; vm_compute; reflexivity].
Defined.

(** * Further properties *)

(** ** Slippage at two-decimal rates *)

Lemma getMaxAmountWithSlippage_factor (amount : Z) (rate : float) :
  getMaxAmountWithSlippage amount rate =
    f ← maxSlippageFactor rate; Some (Z.quot (amount * f) 10000).
Proof.
  unfold getMaxAmountWithSlippage, maxSlippageFactor.
  replace (BN.of_number BASIS_POINT_MAX_number)
    with (Some 10000) by (vm_compute; reflexivity).
  destruct (BN.of_number _) as [f|]; reflexivity.
Qed.

Lemma getMinAmountWithSlippage_factor (amount : Z) (rate : float) :
  getMinAmountWithSlippage amount rate =
    g ← minSlippageFactor rate; Some (Z.quot (amount * g) 10000).
Proof.
  unfold getMinAmountWithSlippage, minSlippageFactor.
  replace (BN.of_number BASIS_POINT_MAX_number)
    with (Some 10000) by (vm_compute; reflexivity).
  destruct (BN.of_number _) as [g|]; reflexivity.
Qed.

(** Every rate from 0.00 to 100.00 has been run. *)
Lemma slippageFactorsOk_all (k : Z) :
  0 <= k <= 10000 -> slippageFactorsOk k = true.
Proof.
  intros Hk.
  assert (Hall : forallb slippageFactorsOk (seqZ 0 10001) = true)
    by (vm_compute; reflexivity).
  rewrite forallb_forall in Hall. apply Hall.
  apply list_elem_of_In, elem_of_seqZ. lia.
Qed.

Lemma slippage_factors (k : Z) :
  0 <= k <= 10000 ->
  exists f g : Z,
    maxSlippageFactor (hundredths k) = Some f /\
    minSlippageFactor (hundredths k) = Some g /\
    (f = 10000 + k \/ f = 10000 + k - 1) /\ 10000 <= f /\
    (g = 10000 - k \/ g = 10000 - k - 1) /\ 0 <= g <= 10000.
Proof.
  intros Hk. pose proof (slippageFactorsOk_all k Hk) as Hok.
  unfold slippageFactorsOk in Hok.
  destruct (maxSlippageFactor (hundredths k)) as [f|]; [| discriminate].
  destruct (minSlippageFactor (hundredths k)) as [g|]; [| discriminate].
  rewrite !andb_true_iff, !orb_true_iff, !Z.eqb_eq, !Z.leb_le in Hok.
  exists f, g. intuition lia.
Qed.

(** X1.  For every rate of at most two decimals from 0 to 100 percent
    ([k] hundredths) and every non-negative amount, both helpers return,
    and each multiplies the amount by the exact basis-point factor
    ([10000 + k], [10000 - k]) or by that factor less one: the truncated
    binary64 product is never more than one basis point short and never
    above. *)
Theorem slippage_within_one_basis_point (amount k : Z) :
  0 <= amount -> 0 <= k <= 10000 ->
  exists f g : Z,
    (f = 10000 + k \/ f = 10000 + k - 1) /\
    (g = 10000 - k \/ g = 10000 - k - 1) /\
    getMaxAmountWithSlippage amount (hundredths k)
      = Some (amount * f / 10000) /\
    getMinAmountWithSlippage amount (hundredths k)
      = Some (amount * g / 10000).
Proof.
  intros Hamount Hk.
  destruct (slippage_factors k Hk) as (f & g & Hf & Hg & Hfk & Hf0 & Hgk & Hg0).
  exists f, g. split; [assumption |]. split; [assumption |].
  rewrite getMaxAmountWithSlippage_factor, getMinAmountWithSlippage_factor.
  rewrite Hf, Hg. cbn [mbind option_bind].
  rewrite !Z.quot_div_nonneg by nia. split; reflexivity.
Qed.

(** Seven hundredths of a percent on 1_000_000: one basis point short. *)
Lemma slippage_within_one_basis_point_witness :
  exists f g : Z,
    (f = 10000 + 7 \/ f = 10000 + 7 - 1) /\
    (g = 10000 - 7 \/ g = 10000 - 7 - 1) /\
    getMaxAmountWithSlippage 1000000 (hundredths 7)
      = Some (1000000 * f / 10000) /\
    getMinAmountWithSlippage 1000000 (hundredths 7)
      = Some (1000000 * g / 10000).
Proof.
  apply (slippage_within_one_basis_point 1000000 7); lia.
Defined.

(** X2.  For the same rates and amounts the two results bracket the
    amount: the minimum is at most the amount, the maximum at least. *)
Theorem slippage_brackets_amount (amount k : Z) :
  0 <= amount -> 0 <= k <= 10000 ->
  exists lo hi : Z,
    getMinAmountWithSlippage amount (hundredths k) = Some lo /\
    getMaxAmountWithSlippage amount (hundredths k) = Some hi /\
    0 <= lo <= amount /\ amount <= hi.
Proof.
  intros Hamount Hk.
  destruct (slippage_factors k Hk) as (f & g & Hf & Hg & Hfk & Hf0 & Hgk & Hg0).
  rewrite getMaxAmountWithSlippage_factor, getMinAmountWithSlippage_factor.
  rewrite Hf, Hg. cbn [mbind option_bind].
  rewrite !Z.quot_div_nonneg by nia.
  eexists _, _. split; [reflexivity |]. split; [reflexivity |].
  split; [split |].
  - apply Z.div_pos; nia.
  - apply Z.div_le_upper_bound; nia.
  - apply Z.div_le_lower_bound; nia.
Qed.

(** Half a percent around 1_000_000. *)
Lemma slippage_brackets_amount_witness :
  exists lo hi : Z,
    getMinAmountWithSlippage 1000000 (hundredths 50) = Some lo /\
    getMaxAmountWithSlippage 1000000 (hundredths 50) = Some hi /\
    0 <= lo <= 1000000 /\ 1000000 <= hi.
Proof.
  apply (slippage_brackets_amount 1000000 50); lia.
Defined.

(** ** Quotes: failure, schedule and what is not looked at *)

Lemma quotePeriod_saturated (currentPoint activationPoint numberOfPeriod
    periodFrequency : Z) :
  0 < periodFrequency -> 0 <= numberOfPeriod ->
  activationPoint + numberOfPeriod * periodFrequency <= currentPoint ->
  quotePeriod currentPoint activationPoint numberOfPeriod periodFrequency
    = Some numberOfPeriod.
Proof.
  intros Hf Hn Hend.
  rewrite quotePeriod_after by nia.
  destruct (Z.eqb_spec periodFrequency 0); [lia |].
  f_equal. apply Z.min_l.
  apply Z.quot_le_lower_bound; lia.
Qed.

(** X3.  The imported helpers apart, [getQuote] fails in exactly three
    situations: the pool account does not exist; the pool has reached its
    activation point with [periodFrequency = 0] (the elapsed time is
    divided by it); or the base numerator at the period of the quote is
    negative (its comparison with the number [MAX_FEE_NUMERATOR]
    throws).  Before activation a zero [periodFrequency] does no harm. *)
Theorem getQuote_fails_iff `{U : QuoteUtils} (w : World)
    (params : GetQuoteParams) :
  getQuote w params = None <->
  fetchPoolState w (pool params) = None \/
  exists poolState : PoolState,
    fetchPoolState w (pool params) = Some poolState /\
    ((activationPoint poolState
        <= readCurrentPoint w (activationType poolState) /\
      periodFrequency (poolFees poolState) = 0) \/
     exists period : Z,
       quotePeriod (readCurrentPoint w (activationType poolState))
         (activationPoint poolState) (numberOfPeriod (poolFees poolState))
         (periodFrequency (poolFees poolState)) = Some period /\
       getBaseFeeNumerator (feeSchedulerMode (poolFees poolState))
         (cliffFeeNumerator (poolFees poolState)) period
         (reductionFactor (poolFees poolState)) < 0).
Proof.
  destruct (fetchPoolState w (pool params)) as [poolState|] eqn:Hfetch.
  2: { unfold getQuote. rewrite Hfetch.
       split; [left; reflexivity | reflexivity]. }
  destruct (quotePeriod (readCurrentPoint w (activationType poolState))
              (activationPoint poolState)
              (numberOfPeriod (poolFees poolState))
              (periodFrequency (poolFees poolState)))
    as [period|] eqn:Hperiod.
  - rewrite (getQuote_at_period w params poolState period Hfetch Hperiod).
    destruct (Z.ltb_spec
                (getBaseFeeNumerator (feeSchedulerMode (poolFees poolState))
                   (cliffFeeNumerator (poolFees poolState)) period
                   (reductionFactor (poolFees poolState))) 0)
      as [Hneg | Hnonneg].
    + split; [| reflexivity]. intros _. right. exists poolState.
      split; [reflexivity |]. right. exists period.
      split; [exact Hperiod | exact Hneg].
    + split; [discriminate |].
      intros [H | (ps & [= <-] & [(Hge & Hz) | (period' & Hp' & Hneg)])].
      * discriminate.
      * rewrite (quotePeriod_after _ _ _ _ Hge), Hz in Hperiod.
        discriminate.
      * rewrite Hperiod in Hp'. injection Hp' as <-. lia.
  - unfold getQuote. rewrite Hfetch. cbn [mbind option_bind].
    rewrite Hperiod. split; [| reflexivity]. intros _. right.
    exists poolState. split; [reflexivity |]. left.
    destruct (Z.lt_ge_cases (readCurrentPoint w (activationType poolState))
                (activationPoint poolState)) as [Hlt | Hge].
    + rewrite (quotePeriod_before _ _ _ _ Hlt) in Hperiod. discriminate.
    + rewrite (quotePeriod_after _ _ _ _ Hge) in Hperiod.
      destruct (Z.eqb_spec (periodFrequency (poolFees poolState)) 0);
        [split; assumption | discriminate].
Qed.

(** X4.  Once the schedule has run out ([numberOfPeriod] periods of
    [periodFrequency] points after activation) the outcome no longer
    depends on the time the quote is asked at: any two later readings of
    the same snapshot give the same quote or fail alike, and the quote is
    given exactly when the base numerator of the last period is not
    negative. *)
Theorem getQuote_after_schedule_end `{U : QuoteUtils} (w1 w2 : World)
    (params : GetQuoteParams) (poolState : PoolState) :
  fetchPoolState w1 (pool params) = Some poolState ->
  fetchPoolState w2 (pool params) = Some poolState ->
  0 < periodFrequency (poolFees poolState) ->
  0 <= numberOfPeriod (poolFees poolState) ->
  activationPoint poolState
    + numberOfPeriod (poolFees poolState) * periodFrequency (poolFees poolState)
    <= readCurrentPoint w1 (activationType poolState) ->
  activationPoint poolState
    + numberOfPeriod (poolFees poolState) * periodFrequency (poolFees poolState)
    <= readCurrentPoint w2 (activationType poolState) ->
  getQuote w1 params = getQuote w2 params /\
  (is_Some (getQuote w1 params) <->
   0 <= getBaseFeeNumerator (feeSchedulerMode (poolFees poolState))
          (cliffFeeNumerator (poolFees poolState))
          (numberOfPeriod (poolFees poolState))
          (reductionFactor (poolFees poolState))).
Proof.
  intros Hf1 Hf2 Hfreq Hn Hend1 Hend2.
  rewrite (getQuote_at_period w1 params poolState _ Hf1
             (quotePeriod_saturated _ _ _ _ Hfreq Hn Hend1)).
  rewrite (getQuote_at_period w2 params poolState _ Hf2
             (quotePeriod_saturated _ _ _ _ Hfreq Hn Hend2)).
  split; [reflexivity |].
  destruct (Z.ltb_spec
              (getBaseFeeNumerator (feeSchedulerMode (poolFees poolState))
                 (cliffFeeNumerator (poolFees poolState))
                 (numberOfPeriod (poolFees poolState))
                 (reductionFactor (poolFees poolState))) 0)
    as [Hneg | Hnonneg].
  - split; [intros [q Hq]; discriminate | lia].
  - split; [intros _; exact Hnonneg | intros _; eexists; reflexivity].
Qed.

(** The sample schedule ends at 1100; read at 1100 and at 5000. *)
Lemma getQuote_after_schedule_end_witness :
  getQuote (U := Sample.utils) (Sample.world Sample.noDynamicFee 1100000)
    Sample.params
  = getQuote (U := Sample.utils) (Sample.world Sample.noDynamicFee 5000000)
      Sample.params /\
  (is_Some (getQuote (U := Sample.utils)
              (Sample.world Sample.noDynamicFee 1100000) Sample.params) <->
   0 <= getBaseFeeNumerator (QuoteUtils := Sample.utils) 0 1000000 10 50000).
Proof.
  apply (getQuote_after_schedule_end (U := Sample.utils)
           (Sample.world Sample.noDynamicFee 1100000)
           (Sample.world Sample.noDynamicFee 5000000)
           Sample.params (Sample.poolState Sample.noDynamicFee));
    first [reflexivity | vm_compute; congruence].
Defined.

(** X5.  From the activation point on, with a positive [periodFrequency],
    the period only grows with the current point, starts at 0 at the
    activation point itself and, for a non-negative [numberOfPeriod], stays
    between 0 and [numberOfPeriod]. *)
Theorem quotePeriod_monotone (point1 point2 activationPoint numberOfPeriod
    periodFrequency : Z) :
  0 < periodFrequency -> 0 <= numberOfPeriod ->
  activationPoint <= point1 -> point1 <= point2 ->
  exists period1 period2 : Z,
    quotePeriod point1 activationPoint numberOfPeriod periodFrequency
      = Some period1 /\
    quotePeriod point2 activationPoint numberOfPeriod periodFrequency
      = Some period2 /\
    0 <= period1 /\ period1 <= period2 /\ period2 <= numberOfPeriod /\
    quotePeriod activationPoint activationPoint numberOfPeriod periodFrequency
      = Some 0.
Proof.
  intros Hf Hn H1 H12.
  rewrite !quotePeriod_after by lia.
  destruct (Z.eqb_spec periodFrequency 0); [lia |].
  eexists _, _. split; [reflexivity |]. split; [reflexivity |].
  pose proof (Z.quot_pos (point1 - activationPoint) periodFrequency
                ltac:(lia) Hf) as Hq1.
  pose proof (Z.quot_le_mono (point1 - activationPoint)
                (point2 - activationPoint) periodFrequency Hf ltac:(lia)) as Hq.
  rewrite Z.sub_diag, Z.quot_0_l by lia.
  repeat split; try lia. f_equal. lia.
Qed.

(** Periods 2 and 7 of the sample schedule. *)
Lemma quotePeriod_monotone_witness :
  exists period1 period2 : Z,
    quotePeriod 1025 1000 10 10 = Some period1 /\
    quotePeriod 1079 1000 10 10 = Some period2 /\
    0 <= period1 /\ period1 <= period2 /\ period2 <= 10 /\
    quotePeriod 1000 1000 10 10 = Some 0.
Proof.
  apply (quotePeriod_monotone 1025 1079 1000 10 10); lia.
Defined.

(** X6.  The quote does not depend on the pool's dynamic-fee record: two
    snapshots that differ in it only, read at the same slot and clock, are
    quoted alike. *)
Theorem getQuote_ignores_dynamic_fee `{U : QuoteUtils} (w1 w2 : World)
    (params : GetQuoteParams) (poolState : PoolState)
    (dyn : DynamicFeeStruct) :
  fetchPoolState w1 (pool params) = Some poolState ->
  fetchPoolState w2 (pool params) = Some (withDynamicFee poolState dyn) ->
  currentSlot w1 = currentSlot w2 ->
  dateNow w1 = dateNow w2 ->
  getQuote w1 params = getQuote w2 params.
Proof.
  intros Hf1 Hf2 Hslot Hnow.
  unfold getQuote. rewrite Hf1, Hf2. cbn [mbind option_bind].
  unfold readCurrentPoint. rewrite Hslot, Hnow.
  cbn [withDynamicFee tokenAMint sqrtPrice liquidity activationType
       activationPoint poolFees numberOfPeriod periodFrequency].
  destruct (quotePeriod _ _ _ _) as [period|]; [| reflexivity].
  cbn [mbind option_bind].
  rewrite !quoteTradeFeeNumerator_ceiling. reflexivity.
Qed.

(** The sample pool without and with its dynamic fee. *)
Lemma getQuote_ignores_dynamic_fee_witness :
  getQuote (U := Sample.utils) (Sample.world Sample.noDynamicFee 1050000)
    Sample.params
  = getQuote (U := Sample.utils) (Sample.world Sample.dynamicFee 1050000)
      Sample.params.
Proof.
  apply (getQuote_ignores_dynamic_fee (U := Sample.utils)
           (Sample.world Sample.noDynamicFee 1050000)
           (Sample.world Sample.dynamicFee 1050000)
           Sample.params (Sample.poolState Sample.noDynamicFee)
           Sample.dynamicFee); reflexivity.
Defined.

(** X7.  The input mint is only compared with the pool's token A: every
    other mint, a token of the pool or not, gets the B-to-A quote. *)
Theorem getQuote_mint_not_checked `{U : QuoteUtils} (w : World)
    (params1 params2 : GetQuoteParams) (poolState : PoolState) :
  pool params1 = pool params2 ->
  inAmount params1 = inAmount params2 ->
  fetchPoolState w (pool params1) = Some poolState ->
  inputTokenMint params1 <> tokenAMint poolState ->
  inputTokenMint params2 <> tokenAMint poolState ->
  getQuote w params1 = getQuote w params2.
Proof.
  intros Hpool Hamount Hfetch Hm1 Hm2.
  unfold getQuote. rewrite <- Hpool, Hfetch, <- Hamount.
  cbn [mbind option_bind].
  rewrite !bool_decide_eq_false_2 by congruence. reflexivity.
Qed.

(** Token B of the sample pool (22) and a mint foreign to it (33). *)
Lemma getQuote_mint_not_checked_witness :
  getQuote (U := Sample.utils) (Sample.world Sample.noDynamicFee 1050000)
    {| pool := 7%N; inAmount := 1000000; inputTokenMint := 22%N |}
  = getQuote (U := Sample.utils) (Sample.world Sample.noDynamicFee 1050000)
      {| pool := 7%N; inAmount := 1000000; inputTokenMint := 33%N |}.
Proof.
  apply (getQuote_mint_not_checked (U := Sample.utils)
           (Sample.world Sample.noDynamicFee 1050000)
           {| pool := 7%N; inAmount := 1000000; inputTokenMint := 22%N |}
           {| pool := 7%N; inAmount := 1000000; inputTokenMint := 33%N |}
           (Sample.poolState Sample.noDynamicFee));
    first [reflexivity | vm_compute; congruence].
Defined.

(** ** Unclaimed fees: failure, growth and dust *)

(** X8.  [getUnClaimReward] throws exactly when one of the two products
    [positionTotalLiquidity * (accumulator - checkpoint)] is negative:
    the right shift asserts a non-negative number.  Nothing else in it
    can fail. *)
Theorem getUnClaimReward_throws_iff (scale : N) (poolState : PoolState)
    (positionState : PositionState) :
  getUnClaimReward scale poolState positionState = None <->
  positionTotalLiquidity positionState
  * (bytesToBN (feeAPerLiquidity poolState)
     - bytesToBN (feeAPerTokenCheckpoint positionState)) < 0
  \/ positionTotalLiquidity positionState
     * (bytesToBN (feeBPerLiquidity poolState)
        - bytesToBN (feeBPerTokenCheckpoint positionState)) < 0.
Proof.
  split.
  - intros Hnone.
    destruct (Z.lt_ge_cases
                (positionTotalLiquidity positionState
                 * (bytesToBN (feeAPerLiquidity poolState)
                    - bytesToBN (feeAPerTokenCheckpoint positionState))) 0)
      as [HA | HA]; [left; exact HA |].
    destruct (Z.lt_ge_cases
                (positionTotalLiquidity positionState
                 * (bytesToBN (feeBPerLiquidity poolState)
                    - bytesToBN (feeBPerTokenCheckpoint positionState))) 0)
      as [HB | HB]; [right; exact HB |].
    rewrite (getUnClaimReward_returns scale poolState positionState HA HB)
      in Hnone.
    discriminate.
  - exact (getUnClaimReward_throws scale poolState positionState).
Qed.

(** X9.  For a position with non-negative liquidity whose checkpoints are
    not above the pool's accumulators, the reported fees are at least the
    pending balances, and they do not decrease when the accumulators
    advance; the reported rewards do not change. *)
Theorem getUnClaimReward_monotone (scale : N) (poolState : PoolState)
    (positionState : PositionState) (accumulatorA accumulatorB : list byte) :
  0 <= positionTotalLiquidity positionState ->
  bytesToBN (feeAPerTokenCheckpoint positionState)
    <= bytesToBN (feeAPerLiquidity poolState) ->
  bytesToBN (feeAPerLiquidity poolState) <= bytesToBN accumulatorA ->
  bytesToBN (feeBPerTokenCheckpoint positionState)
    <= bytesToBN (feeBPerLiquidity poolState) ->
  bytesToBN (feeBPerLiquidity poolState) <= bytesToBN accumulatorB ->
  exists r1 r2 : UnClaimReward,
    getUnClaimReward scale poolState positionState = Some r1 /\
    getUnClaimReward scale
      (withAccumulators poolState accumulatorA accumulatorB) positionState
      = Some r2 /\
    feeAPending positionState <= feeTokenA r1 <= feeTokenA r2 /\
    feeBPending positionState <= feeTokenB r1 <= feeTokenB r2 /\
    rewards r1 = rewards r2.
Proof.
  intros HL HA1 HA2 HB1 HB2.
  eexists _, _. split; [| split].
  - apply getUnClaimReward_returns; unfold feePerTokenStored, BN.sub; nia.
  - apply getUnClaimReward_returns;
      cbn [withAccumulators feeAPerLiquidity feeBPerLiquidity];
      unfold feePerTokenStored, BN.sub; nia.
  - cbn [feeTokenA feeTokenB rewards withAccumulators feeAPerLiquidity
         feeBPerLiquidity].
    unfold feePerTokenStored, BN.sub.
    rewrite !Z.shiftr_div_pow2 by lia.
    assert (Hpow : 0 < 2 ^ Z.of_N scale) by (apply Z.pow_pos_nonneg; lia).
    set (L := positionTotalLiquidity positionState) in *.
    pose proof (Z.div_pos
                  (L * (bytesToBN (feeAPerLiquidity poolState)
                        - bytesToBN (feeAPerTokenCheckpoint positionState)))
                  (2 ^ Z.of_N scale) ltac:(nia) Hpow).
    pose proof (Z.div_pos
                  (L * (bytesToBN (feeBPerLiquidity poolState)
                        - bytesToBN (feeBPerTokenCheckpoint positionState)))
                  (2 ^ Z.of_N scale) ltac:(nia) Hpow).
    pose proof (Z.div_le_mono
                  (L * (bytesToBN (feeAPerLiquidity poolState)
                        - bytesToBN (feeAPerTokenCheckpoint positionState)))
                  (L * (bytesToBN accumulatorA
                        - bytesToBN (feeAPerTokenCheckpoint positionState)))
                  (2 ^ Z.of_N scale) Hpow ltac:(nia)).
    pose proof (Z.div_le_mono
                  (L * (bytesToBN (feeBPerLiquidity poolState)
                        - bytesToBN (feeBPerTokenCheckpoint positionState)))
                  (L * (bytesToBN accumulatorB
                        - bytesToBN (feeBPerTokenCheckpoint positionState)))
                  (2 ^ Z.of_N scale) Hpow ltac:(nia)).
    repeat split; lia.
Qed.

(** The sample position, and the A accumulator advanced from [3 * 2^64]
    to [2^120]. *)
Lemma getUnClaimReward_monotone_witness :
  exists r1 r2 : UnClaimReward,
    getUnClaimReward 128 Sample.rewardPool Sample.rewardPosition = Some r1 /\
    getUnClaimReward 128
      (withAccumulators Sample.rewardPool
         (repeat x00 15 ++ [x01]) Sample.zeros16)
      Sample.rewardPosition = Some r2 /\
    feeAPending Sample.rewardPosition <= feeTokenA r1 <= feeTokenA r2 /\
    feeBPending Sample.rewardPosition <= feeTokenB r1 <= feeTokenB r2 /\
    rewards r1 = rewards r2.
Proof.
  apply (getUnClaimReward_monotone 128 Sample.rewardPool Sample.rewardPosition
           (repeat x00 15 ++ [x01]) Sample.zeros16);
    vm_compute; congruence.
Defined.

(** X10.  An accrual of less than one token unit is dropped: when both
    products are non-negative and below [2^LIQUIDITY_SCALE] (as for a
    position without liquidity, or one whose checkpoints equal the
    accumulators), the fees reported are exactly the pending balances. *)
Theorem getUnClaimReward_dust (scale : N) (poolState : PoolState)
    (positionState : PositionState) :
  0 <= positionTotalLiquidity positionState
       * (bytesToBN (feeAPerLiquidity poolState)
          - bytesToBN (feeAPerTokenCheckpoint positionState))
    < 2 ^ Z.of_N scale ->
  0 <= positionTotalLiquidity positionState
       * (bytesToBN (feeBPerLiquidity poolState)
          - bytesToBN (feeBPerTokenCheckpoint positionState))
    < 2 ^ Z.of_N scale ->
  getUnClaimReward scale poolState positionState
    = Some {| feeTokenA := feeAPending positionState;
              feeTokenB := feeBPending positionState;
              rewards := map rewardPendings (rewardInfos positionState) |}.
Proof.
  intros HA HB.
  rewrite getUnClaimReward_returns
    by (unfold feePerTokenStored, BN.sub; lia).
  unfold feePerTokenStored, BN.sub.
  rewrite !Z.shiftr_div_pow2 by lia.
  rewrite !Z.div_small by lia.
  rewrite !Z.add_0_r. reflexivity.
Qed.

(** Liquidity 1 against an accumulator advance of [3 * 2^64]: the product
    is below [2^128]. *)
Lemma getUnClaimReward_dust_witness :
  getUnClaimReward 128 Sample.rewardPool
    {| unlockedLiquidity := 1;
       vestedLiquidity := 0;
       permanentLockedLiquidity := 0;
       feeAPerTokenCheckpoint := Sample.zeros16;
       feeBPerTokenCheckpoint := Sample.zeros16;
       feeAPending := 7;
       feeBPending := 9;
       rewardInfos := [] |}
  = Some {| feeTokenA := 7; feeTokenB := 9; rewards := [] |}.
Proof.
  apply (getUnClaimReward_dust 128 Sample.rewardPool
           {| unlockedLiquidity := 1;
              vestedLiquidity := 0;
              permanentLockedLiquidity := 0;
              feeAPerTokenCheckpoint := Sample.zeros16;
              feeBPerTokenCheckpoint := Sample.zeros16;
              feeAPending := 7;
              feeBPending := 9;
              rewardInfos := [] |});
    vm_compute; split; congruence.
Defined.

(** ** Stored byte arrays as numbers *)

Lemma byte_to_N_inj (a b : byte) : Byte.to_N a = Byte.to_N b -> a = b.
Proof.
  intros Heq. pose proof (Byte.of_to_N a) as Ha.
  rewrite Heq, Byte.of_to_N in Ha. congruence.
Qed.

(** X11.  Reversing the bytes and reading them big-endian is reading them
    little-endian: an array is worth its low part plus [256^(length of
    the low part)] times its high part, so trailing zero bytes change
    nothing. *)
Theorem bytesToBN_app (low high : list byte) (n : nat) :
  bytesToBN (low ++ high)
    = bytesToBN low + 2 ^ (8 * Z.of_nat (length low)) * bytesToBN high /\
  bytesToBN (low ++ repeat x00 n) = bytesToBN low.
Proof.
  assert (Happ : forall high' : list byte,
             bytesToBN (low ++ high')
             = bytesToBN low
               + 2 ^ (8 * Z.of_nat (length low)) * bytesToBN high').
  { intros high'. induction low as [|b low IH].
    - cbn [app length]. change (bytesToBN []) with 0. lia.
    - cbn [app]. rewrite !bytesToBN_cons, IH.
      replace (8 * Z.of_nat (length (b :: low)))
        with (8 + 8 * Z.of_nat (length low)) by (cbn [length]; lia).
      rewrite Z.pow_add_r by lia. change (2 ^ 8) with 256. ring. }
  split; [apply Happ |].
  rewrite Happ.
  assert (Hzero : bytesToBN (repeat x00 n) = 0).
  { induction n as [|n IH]; [reflexivity |].
    cbn [repeat]. rewrite bytesToBN_cons, IH. reflexivity. }
  rewrite Hzero. lia.
Qed.

(** X12.  Two stored arrays of the same length that read as the same
    number are the same array. *)
Theorem bytesToBN_inj (bytes1 bytes2 : list byte) :
  length bytes1 = length bytes2 ->
  bytesToBN bytes1 = bytesToBN bytes2 ->
  bytes1 = bytes2.
Proof.
  revert bytes2.
  induction bytes1 as [|a bytes1 IH]; intros [|b bytes2] Hlen Heq;
    try discriminate; [reflexivity |].
  rewrite !bytesToBN_cons in Heq.
  pose proof (byte_range a). pose proof (byte_range b).
  assert (Hab : Z.of_N (Byte.to_N a) = Z.of_N (Byte.to_N b)) by lia.
  f_equal.
  - apply byte_to_N_inj. lia.
  - apply IH; [cbn [length] in Hlen; lia | lia].
Qed.

(** The sample accumulator against itself. *)
Lemma bytesToBN_inj_witness : Sample.three64 = Sample.three64.
Proof.
  apply (bytesToBN_inj Sample.three64 Sample.three64); reflexivity.
Defined.

(** ** The NFTs of a user *)

Lemma getAllNftByUser_from (accounts : list TokenAccountData)
    (userNfts : list PublicKey) :
  fold_left
    (fun userNfts account =>
       if accountAmount account =? 1
       then userNfts ++ [accountMint account]
       else userNfts)
    accounts userNfts
  = userNfts
    ++ map accountMint
         (filter (fun account => accountAmount account = 1) accounts).
Proof.
  revert userNfts.
  induction accounts as [|account accounts IH]; intros userNfts.
  - cbn. rewrite app_nil_r. reflexivity.
  - cbn [fold_left]. rewrite IH, filter_cons.
    destruct (Z.eqb_spec (accountAmount account) 1) as [Hone | Hnot].
    + rewrite decide_True by exact Hone. cbn [map].
      rewrite <- app_assoc. reflexivity.
    + rewrite decide_False by exact Hnot. reflexivity.
Qed.

(** X13.  [getAllNftByUser] returns the mints of the user's token accounts
    that hold exactly one unit, in the order of the accounts and with
    repetitions kept: a mint is listed if and only if one of the accounts
    is of that mint and holds 1, and there are never more entries than
    accounts. *)
Theorem getAllNftByUser_spec (accounts : list TokenAccountData) :
  getAllNftByUser accounts
    = map accountMint
        (filter (fun account => accountAmount account = 1) accounts) /\
  (forall mint : PublicKey,
     mint ∈ getAllNftByUser accounts <->
     exists account : TokenAccountData,
       account ∈ accounts /\ accountMint account = mint /\
       accountAmount account = 1) /\
  (length (getAllNftByUser accounts) <= length accounts)%nat.
Proof.
  assert (Heq : getAllNftByUser accounts
                = map accountMint
                    (filter (fun account => accountAmount account = 1)
                       accounts)).
  { unfold getAllNftByUser. rewrite getAllNftByUser_from. reflexivity. }
  split; [exact Heq |]. rewrite Heq. split.
  - intros mint. rewrite list_elem_of_In, in_map_iff. split.
    + intros (account & <- & Hin).
      apply list_elem_of_In, list_elem_of_filter in Hin.
      exists account. tauto.
    + intros (account & Hin & <- & Hone). exists account.
      split; [reflexivity |].
      apply list_elem_of_In, list_elem_of_filter. tauto.
  - rewrite length_map. apply length_filter.
Qed.

(** ** Pool creation parameters *)

(** X14.  Whatever the order the two mints are passed in, the parameters
    prepared name the smaller key as token A and the larger as token B,
    and are only returned when both have a mint account. *)
Theorem preparePoolCreationParams_orders_mints `{M : MathUtils}
    (mints : gmap N Z) (tokenX tokenY : PublicKey)
    (initialPrice liquidity : Decimal.t) (r : PreparedPoolCreation) :
  preparePoolCreationParams mints tokenX tokenY initialPrice liquidity
    = Some r ->
  preparedTokenAMint r = N.min tokenX tokenY /\
  preparedTokenBMint r = N.max tokenX tokenY /\
  is_Some (mints !! preparedTokenAMint r) /\
  is_Some (mints !! preparedTokenBMint r).
Proof.
  unfold preparePoolCreationParams, getTokenDecimals, BN.gt.
  destruct (Z.gtb_spec (Z.of_N tokenX) (Z.of_N tokenY)) as [Hgt | Hle].
  - destruct (mints !! tokenY) as [dA|] eqn:HA; [| discriminate].
    destruct (mints !! tokenX) as [dB|] eqn:HB; [| discriminate].
    cbn [mbind option_bind].
    destruct (priceToSqrtPrice _ _ _); [| discriminate].
    destruct (decimalToQ64 _); [| discriminate].
    cbn [mbind option_bind]. intros [= <-].
    cbn [preparedTokenAMint preparedTokenBMint]. rewrite HA, HB.
    repeat split; try lia; eexists; reflexivity.
  - destruct (mints !! tokenX) as [dA|] eqn:HA; [| discriminate].
    destruct (mints !! tokenY) as [dB|] eqn:HB; [| discriminate].
    cbn [mbind option_bind].
    destruct (priceToSqrtPrice _ _ _); [| discriminate].
    destruct (decimalToQ64 _); [| discriminate].
    cbn [mbind option_bind]. intros [= <-].
    cbn [preparedTokenAMint preparedTokenBMint]. rewrite HA, HB.
    repeat split; try lia; eexists; reflexivity.
Qed.

(** The sample mints passed larger first, at price 4. *)
Lemma preparePoolCreationParams_orders_mints_witness :
  preparedTokenAMint
    {| preparedTokenAMint := 11%N; preparedTokenBMint := 22%N;
       sqrtPriceQ64 := 291668633435675794240;
       liquidityQ64 := 18446744073709551616 |} = N.min 22 11 /\
  preparedTokenBMint
    {| preparedTokenAMint := 11%N; preparedTokenBMint := 22%N;
       sqrtPriceQ64 := 291668633435675794240;
       liquidityQ64 := 18446744073709551616 |} = N.max 22 11 /\
  is_Some (sampleMints !! 11%N) /\ is_Some (sampleMints !! 22%N).
Proof.
  apply (preparePoolCreationParams_orders_mints (M := sampleMath)
           sampleMints 22%N 11%N (Decimal.Finite false 4 0)
           (Decimal.Finite false 1 0)).
  vm_compute. reflexivity.
Defined.

(** X15.  Passing the mints the other way round is passing the inverse
    price: with the larger key first, the call prepares what the call
    with the smaller key first prepares for [1 / initialPrice]. *)
Theorem preparePoolCreationParams_swapped `{M : MathUtils}
    (mints : gmap N Z) (tokenX tokenY : PublicKey)
    (initialPrice liquidity : Decimal.t) :
  (tokenY < tokenX)%N ->
  preparePoolCreationParams mints tokenX tokenY initialPrice liquidity
  = preparePoolCreationParams mints tokenY tokenX
      (Decimal.div (Decimal.of_int 1) initialPrice) liquidity.
Proof.
  intros Hlt. unfold preparePoolCreationParams, BN.gt.
  destruct (Z.gtb_spec (Z.of_N tokenX) (Z.of_N tokenY)); [| lia].
  destruct (Z.gtb_spec (Z.of_N tokenY) (Z.of_N tokenX)); [lia |].
  reflexivity.
Qed.

Lemma preparePoolCreationParams_swapped_witness :
  preparePoolCreationParams (M := sampleMath) sampleMints 22%N 11%N
    (Decimal.Finite false 4 0) (Decimal.Finite false 1 0)
  = preparePoolCreationParams (M := sampleMath) sampleMints 11%N 22%N
      (Decimal.div (Decimal.of_int 1) (Decimal.Finite false 4 0))
      (Decimal.Finite false 1 0).
Proof.
  apply (preparePoolCreationParams_swapped (M := sampleMath) sampleMints
           22%N 11%N (Decimal.Finite false 4 0) (Decimal.Finite false 1 0)).
  reflexivity.
Defined.

(** ** Accuracy of the two price conversions *)

Lemma near_weaken_17 (x y : R) (lo hi : R) :
  bnd lo hi x y -> (0 <= y)%R ->
  (1 - / 100000000000000000 <= lo)%R -> (hi <= 1 + / 100000000000000000)%R ->
  (Rabs (x - y) <= y / 100000000000000000)%R.
Proof.
  intros Hb Hy Hlo Hhi.
  apply (bnd_weaken _ _ (1 - / 100000000000000000)
           (1 + / 100000000000000000)) in Hb; [| assumption ..].
  unfold bnd in Hb. apply Rabs_le. lra.
Qed.

(** What the backward conversion computes, over the reals. *)
Lemma price_from_sqrt_core (S T Vy1 Vy2 VD Vy3 K128 : R) :
  (0 < S)%R -> (0 < T)%R -> (0 < Vy1)%R -> (0 < Vy2)%R -> (0 < VD)%R ->
  (0 < Vy3)%R -> (0 < K128)%R ->
  near (S * S) Vy1 ->
  near (Vy1 * T) Vy2 ->
  near K128 VD ->
  near Vy2 (Vy3 * VD) ->
  (Rabs (Vy3 * K128 - S * S * T) <= S * S * T / 100000000000000000)%R.
Proof.
  intros HS HT HVy1 HVy2 HVD HVy3 HK Hy1 Hy2 HD Hy3.
  unfold near in *.
  assert (HSS : (0 < S * S)%R) by (apply Rmult_lt_0_compat; assumption).
  assert (HSST : (0 < S * S * T)%R) by (apply Rmult_lt_0_compat; assumption).
  pose proof (bnd_mul _ _ _ _ _ _ _ _ (bnd_refl Vy3) HD
                ltac:(lra) ltac:(side) ltac:(lra) ltac:(lra)) as C1.
  pose proof (bnd_sym _ _ _ _ Hy3 ltac:(side) ltac:(side)) as C2.
  pose proof (bnd_trans _ _ _ _ _ _ _ C1 C2 ltac:(side) ltac:(side)) as C3.
  pose proof (bnd_sym _ _ _ _ Hy2 ltac:(side) ltac:(side)) as C4.
  pose proof (bnd_trans _ _ _ _ _ _ _ C3 C4 ltac:(side) ltac:(side)) as C5.
  pose proof (bnd_sym _ _ _ _ Hy1 ltac:(side) ltac:(side)) as C6.
  pose proof (bnd_mul _ _ _ _ _ _ _ _ C6 (bnd_refl T)
                ltac:(side) ltac:(lra) ltac:(lra) ltac:(lra)) as C7.
  pose proof (bnd_trans _ _ _ _ _ _ _ C5 C7 ltac:(side) ltac:(side)) as C8.
  apply (near_weaken_17 _ _ _ _ C8); [lra | side | side].
Qed.

(** What the forward conversion computes, over the reals. *)
Lemma sqrt_from_price_core (P T V1 V2 VK V3 S K64 : R) :
  (0 < P)%R -> (0 < T)%R -> (0 < V1)%R -> (0 < V2)%R -> (0 < VK)%R ->
  (0 < V3)%R -> (0 < K64)%R ->
  near P (V1 * T) ->
  near V1 (V2 * V2) ->
  near K64 VK ->
  near (V2 * VK) V3 ->
  (0 <= S)%R -> (S <= V3 < S + 1)%R ->
  (S * S * T <= (1 + / 100000000000000000) * (P * (K64 * K64)))%R /\
  ((1 - / 100000000000000000) * (P * (K64 * K64))
   <= (S + 1) * (S + 1) * T)%R.
Proof.
  intros HP HT HV1 HV2 HVK HV3 HK64 H1 H2 HK H3 HS Hfl.
  unfold near in *.
  assert (HV22 : (0 < V2 * V2)%R) by (apply Rmult_lt_0_compat; assumption).
  assert (HKK : (0 < K64 * K64)%R) by (apply Rmult_lt_0_compat; assumption).
  assert (HVK2 : (0 < V2 * K64)%R) by (apply Rmult_lt_0_compat; assumption).
  pose proof (bnd_sym _ _ _ _ H3 ltac:(side) ltac:(side)) as A1.
  pose proof (bnd_sym _ _ _ _ HK ltac:(side) ltac:(side)) as A2.
  pose proof (bnd_mul _ _ _ _ _ _ _ _ (bnd_refl V2) A2
                ltac:(lra) ltac:(side) ltac:(lra) ltac:(lra)) as A3.
  pose proof (bnd_trans _ _ _ _ _ _ _ A1 A3 ltac:(side) ltac:(side)) as A4.
  pose proof (bnd_mul _ _ _ _ _ _ _ _ A4 A4
                ltac:(side) ltac:(side) ltac:(lra) ltac:(lra)) as A5.
  pose proof (bnd_sym _ _ _ _ H2 ltac:(side) ltac:(side)) as A6.
  pose proof (bnd_mul _ _ _ _ _ _ _ _ A6 (bnd_refl T)
                ltac:(side) ltac:(lra) ltac:(lra) ltac:(lra)) as A7.
  pose proof (bnd_sym _ _ _ _ H1 ltac:(side) ltac:(side)) as A8.
  pose proof (bnd_trans _ _ _ _ _ _ _ A7 A8 ltac:(side) ltac:(side)) as A9.
  pose proof (bnd_mul _ _ _ _ _ _ _ _ A9 (bnd_refl (K64 * K64))
                ltac:(side) ltac:(lra) ltac:(lra) ltac:(lra)) as A10.
  pose proof (bnd_mul _ _ _ _ _ _ _ _ A5 (bnd_refl T)
                ltac:(side) ltac:(lra) ltac:(nra) ltac:(lra)) as A11.
  replace (V2 * K64 * (V2 * K64) * T)%R
    with (V2 * V2 * T * (K64 * K64))%R in A11 by ring.
  pose proof (bnd_trans _ _ _ _ _ _ _ A11 A10 ltac:(side) ltac:(side)) as A12.
  apply (bnd_weaken _ _ (1 - / 100000000000000000)
           (1 + / 100000000000000000)) in A12;
    [| nra | side | side].
  unfold bnd in A12. destruct A12 as [Alo Ahi].
  assert (Hsq1 : (S * S <= V3 * V3)%R) by nra.
  assert (Hsq2 : (V3 * V3 <= (S + 1) * (S + 1))%R) by nra.
  split; nra.
Qed.

(** X16.  [getPriceFromSqrtPrice] is accurate to seventeen digits: for a
    positive sqrt price and a positive scale the price it returns is
    positive and, times [2^128], within a relative [10^-17] of
    [sqrtPrice^2] times the scale. *)
Theorem getPriceFromSqrtPrice_accuracy (numberPow10 : Z -> Decimal.t)
    (sqrtPrice tokenADecimal tokenBDecimal : Z) :
  0 < sqrtPrice ->
  isPositive (numberPow10 (tokenADecimal - tokenBDecimal)) = true ->
  isPositive (getPriceFromSqrtPrice numberPow10 sqrtPrice tokenADecimal
                tokenBDecimal) = true /\
  (Rabs (valR (getPriceFromSqrtPrice numberPow10 sqrtPrice tokenADecimal
                 tokenBDecimal) * IZR (2 ^ 128)
         - IZR sqrtPrice * IZR sqrtPrice
           * valR (numberPow10 (tokenADecimal - tokenBDecimal)%Z))
   <= IZR sqrtPrice * IZR sqrtPrice
      * valR (numberPow10 (tokenADecimal - tokenBDecimal)%Z)
      / 100000000000000000)%R.
Proof.
  intros Hs HT. unfold getPriceFromSqrtPrice.
  set (scale := numberPow10 (tokenADecimal - tokenBDecimal)) in *.
  assert (H128 : 0 <= 128) by lia.
  destruct (of_BN_pos sqrtPrice Hs) as (Hdp & Hd).
  destruct (mul_near _ _ Hdp Hdp) as (Hy1p & Hy1).
  destruct (mul_near _ _ Hy1p HT) as (Hy2p & Hy2).
  destruct (pow2_near 128 H128) as (HDp & HD).
  destruct (div_near _ _ Hy2p HDp) as (Hy3p & Hy3).
  split; [exact Hy3p |].
  rewrite Hd in Hy1.
  apply (price_from_sqrt_core (IZR sqrtPrice) (valR scale)
           (valR (Decimal.mul (Decimal.of_BN sqrtPrice)
                    (Decimal.of_BN sqrtPrice)))
           (valR (Decimal.mul
                    (Decimal.mul (Decimal.of_BN sqrtPrice)
                       (Decimal.of_BN sqrtPrice)) scale))
           (valR (Decimal.pow2 128))
           (valR (Decimal.div
                    (Decimal.mul
                       (Decimal.mul (Decimal.of_BN sqrtPrice)
                          (Decimal.of_BN sqrtPrice)) scale)
                    (Decimal.pow2 128)))
           (IZR (2 ^ 128)));
    try (apply valR_pos; assumption); try assumption.
  - apply IZR_lt. exact Hs.
  - apply IZR_lt. reflexivity.
Qed.

(** The sqrt price [2^64 + 1] at equal decimals. *)
Lemma getPriceFromSqrtPrice_accuracy_witness :
  isPositive (getPriceFromSqrtPrice exactPow10 18446744073709551617 6 6)
    = true /\
  (Rabs (valR (getPriceFromSqrtPrice exactPow10 18446744073709551617 6 6)
         * IZR (2 ^ 128)
         - IZR 18446744073709551617 * IZR 18446744073709551617
           * valR (exactPow10 (6 - 6)))
   <= IZR 18446744073709551617 * IZR 18446744073709551617
      * valR (exactPow10 (6 - 6)) / 100000000000000000)%R.
Proof.
  apply (getPriceFromSqrtPrice_accuracy exactPow10 18446744073709551617 6 6);
    [lia | reflexivity].
Defined.

(** X17.  [getSqrtPriceFromPrice] returns, for every positive price and
    positive scale, a non-negative [s] that is the integer part of
    [sqrt(price / scale) * 2^64] up to a relative [10^-17] on the
    squares: [s^2 * scale] is at most [price * 2^128] and [(s + 1)^2 *
    scale] at least that, both within that margin. *)
Theorem getSqrtPriceFromPrice_accuracy (numberPow10 : Z -> Decimal.t)
    (price : Decimal.t) (tokenADecimal tokenBDecimal : Z) :
  isPositive price = true ->
  isPositive (numberPow10 (tokenADecimal - tokenBDecimal)) = true ->
  exists s : Z,
    getSqrtPriceFromPrice numberPow10 price tokenADecimal tokenBDecimal
      = Some s /\
    0 <= s /\
    (IZR s * IZR s * valR (numberPow10 (tokenADecimal - tokenBDecimal)%Z)
     <= (1 + / 100000000000000000)
        * (valR price * (IZR (2 ^ 64) * IZR (2 ^ 64))))%R /\
    ((1 - / 100000000000000000)
     * (valR price * (IZR (2 ^ 64) * IZR (2 ^ 64)))
     <= (IZR s + 1) * (IZR s + 1)
        * valR (numberPow10 (tokenADecimal - tokenBDecimal)%Z))%R.
Proof.
  intros HP HT. unfold getSqrtPriceFromPrice.
  set (scale := numberPow10 (tokenADecimal - tokenBDecimal)) in *.
  destruct (div_near price scale HP HT) as (H1p & H1).
  destruct (sqrt_near _ H1p) as (H2p & H2).
  assert (H64 : 0 <= 64) by lia.
  destruct (pow2_near 64 H64) as (HKp & HK).
  destruct (mul_near _ _ H2p HKp) as (H3p & H3).
  destruct (floorToBN_spec _ H3p) as (s & Hs & Hs0 & Hfl).
  exists s. split; [exact Hs |]. split; [exact Hs0 |].
  apply (sqrt_from_price_core (valR price) (valR scale)
           (valR (Decimal.div price scale))
           (valR (Decimal.sqrt (Decimal.div price scale)))
           (valR (Decimal.pow2 64))
           (valR (Decimal.mul (Decimal.sqrt (Decimal.div price scale))
                    (Decimal.pow2 64)))
           (IZR s) (IZR (2 ^ 64)));
    try (apply valR_pos; assumption); try assumption.
  - apply IZR_lt. reflexivity.
  - apply IZR_le. exact Hs0.
Qed.

(** The price 36 at equal decimals. *)
Lemma getSqrtPriceFromPrice_accuracy_witness :
  exists s : Z,
    getSqrtPriceFromPrice exactPow10 (Decimal.Finite false 36 0) 6 6
      = Some s /\
    0 <= s /\
    (IZR s * IZR s * valR (exactPow10 (6 - 6))
     <= (1 + / 100000000000000000)
        * (valR (Decimal.Finite false 36 0)
           * (IZR (2 ^ 64) * IZR (2 ^ 64))))%R /\
    ((1 - / 100000000000000000)
     * (valR (Decimal.Finite false 36 0) * (IZR (2 ^ 64) * IZR (2 ^ 64)))
     <= (IZR s + 1) * (IZR s + 1) * valR (exactPow10 (6 - 6)))%R.
Proof.
  apply (getSqrtPriceFromPrice_accuracy exactPow10
           (Decimal.Finite false 36 0) 6 6); reflexivity.
Defined.

(** ** Price impact at its two ends *)

Lemma p10_18 : p10 18 = 1000000000000000000%R.
Proof. rewrite <- p10_IZR by lia. reflexivity. Qed.

Lemma p10_le (a b : Z) : a <= b -> (p10 a <= p10 b)%R.
Proof.
  intros Hab. replace b with (a + (b - a)) by lia.
  rewrite p10_add, <- (p10_IZR (b - a)) by lia.
  assert (Hone : 1 <= 10 ^ (b - a))
    by (pose proof (Z.pow_pos_nonneg 10 (b - a)); lia).
  apply IZR_le in Hone. pose proof (p10_pos a). nra.
Qed.

(** A number divided by itself is 1, as twenty digits. *)
Lemma round_ratio_same (c : Z) :
  0 < c -> Decimal.round_ratio c c = (10 ^ 19, -19).
Proof.
  intros Hc.
  destruct (Decimal.round_ratio c c) as [m e] eqn:Hr.
  destruct (round_ratio_spec _ _ _ _ Hc Hc Hr) as ((Hlo & Hhi) & Hb1 & Hb2).
  change (10 ^ 19) with 10000000000000000000 in *.
  change (10 ^ 20) with 100000000000000000000 in Hhi.
  assert (HcR : (0 < IZR c)%R) by (apply IZR_lt; exact Hc).
  assert (HloR : (10000000000000000000 <= IZR m)%R) by (apply IZR_le; exact Hlo).
  assert (HhiR : (IZR m <= 99999999999999999999)%R) by (apply IZR_le; lia).
  pose proof (p10_pos e) as He.
  assert (H1 : ((IZR m - / 2) * p10 e <= 1)%R).
  { apply Rmult_le_reg_r with (IZR c); [exact HcR | lra]. }
  assert (H2 : (1 <= (IZR m + / 2) * p10 e)%R).
  { apply Rmult_le_reg_r with (IZR c); [exact HcR | lra]. }
  assert (Hcases : e <= -20 \/ e = -19 \/ -18 <= e) by lia.
  destruct Hcases as [Hlow | [Heq | Hhigh]].
  - exfalso. pose proof (p10_le e (-20) Hlow) as Hle.
    change (p10 (-20)) with (p10 (Z.opp 20)) in Hle.
    rewrite p10_opp, p10_20 in Hle. nra.
  - subst e. change (p10 (-19)) with (p10 (Z.opp 19)) in H1.
    rewrite p10_opp, p10_19 in H1.
    assert (Hm : (IZR m < IZR 10000000000000000001)%R).
    { apply Rmult_lt_reg_r with (/ 10000000000000000000)%R; lra. }
    apply lt_IZR in Hm. f_equal. lia.
  - exfalso. pose proof (p10_le (-18) e Hhigh) as Hle.
    change (p10 (-18)) with (p10 (Z.opp 18)) in Hle.
    rewrite p10_opp, p10_18 in Hle. nra.
Qed.

(** X18.  The two ends of the scale are exact: a positive amount against
    itself has price impact 0, and nothing received against a positive
    ideal amount has price impact 100, whatever the amount. *)
Theorem getPriceImpact_endpoints (amount : Z) :
  0 < amount ->
  getPriceImpact amount amount = 0%float /\
  getPriceImpact 0 amount = 100%float.
Proof.
  intros Hpos. unfold getPriceImpact, BN.sub.
  rewrite Z.sub_diag, Z.sub_0_r. unfold Decimal.of_BN.
  replace (amount <? 0) with false by (symmetry; apply Z.ltb_ge; lia).
  rewrite (Z.abs_eq amount) by lia.
  unfold Decimal.div. change (Z.abs 0) with 0. change (0 <? 0) with false.
  destruct (Z.eqb_spec amount 0) as [Hz | _]; [lia |].
  rewrite (round_ratio_same amount Hpos).
  split; vm_compute; reflexivity.
Qed.

Lemma getPriceImpact_endpoints_witness :
  getPriceImpact 1000000 1000000 = 0%float /\
  getPriceImpact 0 1000000 = 100%float.
Proof.
  apply (getPriceImpact_endpoints 1000000). lia.
Defined.
